(** * The distillation detection head of YOLOv6 (nano/small variant)

    A shallow embedding of [yolov6/models/heads/effidehead_distill_ns.py]:
    the [Detect] head (construction, [initialize_biases], [forward] in
    training and in inference mode) and [build_effidehead_layer].

    Conventions of the embedding.
    - A tensor is its shape together with its entries in logical row-major
      order; entries are real numbers (the idealisation of torch's floats).
    - A Python exception is a [Raise] in the [result] monad.
    - Python ints that count things ([num_layers], [num_classes], [reg_max],
      channel counts, tensor dimensions) are [nat]; stride values are [Z].
    - The arithmetic of the injected sub-modules (torch's convolutions,
      [ConvBNSiLU] of [yolov6.layers.common]) is a parameter [run_module]
      of the model; the initial value torch gives a fresh parameter tensor
      is a parameter [default_init]. *)

From Stdlib Require Import Reals Lra Lia ZArith.
From stdpp Require Import base option list gmap.

(** ** Exceptions *)

Inductive exn : Set :=
  | AssertionError | IndexError | AttributeError | ValueError | RuntimeError.

Inductive result (A : Type) : Type :=
  | Ok (a : A)
  | Raise (e : exn).
Arguments Ok {A} a.
Arguments Raise {A} e.

#[global] Instance result_ret : MRet result := fun _ a => Ok a.
#[global] Instance result_bind : MBind result := fun _ _ f m =>
  match m with Ok a => f a | Raise e => Raise e end.
#[global] Instance result_fmap : FMap result := fun _ _ f m =>
  match m with Ok a => Ok (f a) | Raise e => Raise e end.

(** [l[i]] for a non-negative index. *)
Definition getitem {A} (l : list A) (i : nat) : result A :=
  match l !! i with Some a => Ok a | None => Raise IndexError end.

(** [l[start:stop]] for non-negative bounds: Python clips to the length. *)
Definition py_slice {A} (l : list A) (start stop : nat) : list A :=
  take (stop - start) (drop start l).

(** A loop [for i in idxs: s = f(s, i)] that stops at the first exception. *)
Fixpoint foldM {S B} (f : S -> B -> result S) (idxs : list B) (s : S) : result S :=
  match idxs with
  | [] => Ok s
  | i :: rest => s' ← f s i; foldM f rest s'
  end.

Fixpoint mapM_result {A B} (f : A -> result B) (l : list A) : result (list B) :=
  match l with
  | [] => Ok []
  | a :: rest => b ← f a; bs ← mapM_result f rest; Ok (b :: bs)
  end.

(** ** Tensors *)

Record tensor : Type := Tensor { shape : list nat; data : list R }.

Definition numel (s : list nat) : nat := foldr Nat.mul 1 s.

(** The entries fill the shape. *)
Definition wf_tensor (t : tensor) : Prop := length (data t) = numel (shape t).

Definition torch_full (s : list nat) (v : R) : tensor :=
  {| shape := s; data := replicate (numel s) v |}.

Definition torch_ones (s : list nat) : tensor := torch_full s 1%R.
Definition torch_zeros (s : list nat) : tensor := torch_full s 0%R.

(** [t.fill_(v)] *)
Definition fill_ (t : tensor) (v : R) : tensor :=
  {| shape := shape t; data := replicate (length (data t)) v |}.

(** [t.view(-1)] *)
Definition view_flat (t : tensor) : tensor :=
  {| shape := [numel (shape t)]; data := data t |}.

(** [t.view(s)] and [t.reshape(s)] for an explicit shape. *)
Definition reshape (t : tensor) (s : list nat) : result tensor :=
  if numel s =? numel (shape t) then Ok {| shape := s; data := data t |}
  else Raise RuntimeError.

(** [t.reshape(-1, 4)] *)
Definition reshape_rows4 (t : tensor) : result tensor :=
  if numel (shape t) mod 4 =? 0
  then Ok {| shape := [numel (shape t) / 4; 4]; data := data t |}
  else Raise RuntimeError.

(** [torch.linspace(start, stop, steps)] *)
Definition linspace (start stop : R) (steps : nat) : tensor :=
  {| shape := [steps];
     data := map (fun i => if steps =? 1 then start
                           else (start + INR i * ((stop - start) / INR (steps - 1)))%R)
                 (seq 0 steps) |}.

Definition sigmoid (x : R) : R := (/ (1 + exp (- x)))%R.

(** [torch.sigmoid(t)] *)
Definition torch_sigmoid (t : tensor) : tensor :=
  {| shape := shape t; data := map sigmoid (data t) |}.

(** [t *= s] for a one-element [s] *)
Definition mul_scalar (t : tensor) (s : R) : tensor :=
  {| shape := shape t; data := map (fun v => (v * s)%R) (data t) |}.

(** [t.flatten(2)] *)
Definition flatten2 (t : tensor) : result tensor :=
  match shape t with
  | d0 :: d1 :: d2 :: rest =>
      Ok {| shape := [d0; d1; numel (d2 :: rest)]; data := data t |}
  | _ => Raise IndexError
  end.

(** Entries of a [(b, c, l)] block layout read in [(b, l, c)] order: entry
    [(n, j, k)] of the result is entry [(n, k, j)] of the argument. *)
Definition channels_last (b c l : nat) (d : list R) : list R :=
  flat_map (fun n =>
    flat_map (fun j =>
      map (fun k => nth ((n * c + k) * l + j) d 0%R) (seq 0 c))
      (seq 0 l))
    (seq 0 b).

(** [t.permute((0, 2, 1))] *)
Definition permute021 (t : tensor) : result tensor :=
  match shape t with
  | [b; c; l] => Ok {| shape := [b; l; c]; data := channels_last b c l (data t) |}
  | _ => Raise RuntimeError
  end.

(** [t.permute(0, 2, 3, 1)]: position [(r, q)] of an [h x w] map is the
    row-major offset [r * w + q]. *)
Definition permute0231 (t : tensor) : result tensor :=
  match shape t with
  | [b; c; h; w] =>
      Ok {| shape := [b; h; w; c]; data := channels_last b c (h * w) (data t) |}
  | _ => Raise RuntimeError
  end.

(** The [o]-th block of [t] along [axis]: everything under outer index [o]. *)
Definition chunk (axis : nat) (t : tensor) (o : nat) : list R :=
  let inner := numel (drop axis (shape t)) in
  take inner (drop (o * inner) (data t)).

(** Shapes that may be concatenated along [axis]. *)
Definition cat_compatible (axis : nat) (s0 s : list nat) : bool :=
  bool_decide (length s = length s0)
  && bool_decide (take axis s = take axis s0)
  && bool_decide (drop (S axis) s = drop (S axis) s0).

(** [torch.cat(ts, axis)] for a non-negative axis. *)
Definition torch_cat (ts : list tensor) (axis : nat) : result tensor :=
  match ts with
  | [] => Raise RuntimeError
  | t0 :: _ =>
      if (axis <? length (shape t0)) && forallb (fun t => cat_compatible axis (shape t0) (shape t)) ts
      then Ok {| shape := <[axis := sum_list (map (fun t => nth axis (shape t) 0) ts)]> (shape t0);
                 data := flat_map (fun o => flat_map (fun t => chunk axis t o) ts)
                                  (seq 0 (numel (take axis (shape t0)))) |}
      else Raise RuntimeError
  end.

(** [torch.cat(ts, dim=-1)] *)
Definition torch_cat_last (ts : list tensor) : result tensor :=
  match ts with
  | [] => Raise RuntimeError
  | t0 :: _ =>
      match length (shape t0) with
      | 0 => Raise RuntimeError
      | S k => torch_cat ts k
      end
  end.

(** ** Sub-modules *)

Record parameter : Type := nn_Parameter { p_data : tensor; requires_grad : bool }.

(** [torch.nn.Conv2d]: its configuration and its learned tensors. *)
Record conv2d : Type := mkConv2d {
  in_channels : nat;
  out_channels : nat;
  kernel_size : nat;
  weight : parameter;
  bias : option parameter
}.

(** The two kinds of layer a head is built from. [ConvBNSiLU] (of
    [yolov6.layers.common]) is opaque: it has no [weight] or [bias]
    attribute of its own. *)
Inductive module : Type :=
  | ConvBNSiLU (cin cout ksize cstride : nat)
  | Conv2d (conv : conv2d).

Definition module_in_channels (m : module) : nat :=
  match m with ConvBNSiLU i _ _ _ => i | Conv2d c => in_channels c end.
Definition module_out_channels (m : module) : nat :=
  match m with ConvBNSiLU _ o _ _ => o | Conv2d c => out_channels c end.
Definition module_kernel_size (m : module) : nat :=
  match m with ConvBNSiLU _ _ k _ => k | Conv2d c => kernel_size c end.

(** ** The detection head *)

Record Detect : Type := mkDetect {
  nc : nat;
  no : nat;
  nl : nat;
  grid : list tensor;
  prior_prob : R;
  inplace : bool;
  stride : list Z;
  use_dfl : bool;
  reg_max : nat;
  proj_conv : conv2d;
  grid_cell_offset : R;
  grid_cell_size : R;
  stems : list module;
  cls_convs : list module;
  reg_convs : list module;
  cls_preds : list module;
  reg_preds_dist : list module;
  reg_preds : list module;
  proj : option parameter;
  training : bool
}.

(** The six [ModuleList.append] calls of one round of the constructor's loop. *)
Definition append_scale (self : Detect) (m0 m1 m2 m3 m4 m5 : module) : Detect :=
  {| nc := nc self; no := no self; nl := nl self; grid := grid self;
     prior_prob := prior_prob self; inplace := inplace self; stride := stride self;
     use_dfl := use_dfl self; reg_max := reg_max self; proj_conv := proj_conv self;
     grid_cell_offset := grid_cell_offset self; grid_cell_size := grid_cell_size self;
     stems := stems self ++ [m0];
     cls_convs := cls_convs self ++ [m1];
     reg_convs := reg_convs self ++ [m2];
     cls_preds := cls_preds self ++ [m3];
     reg_preds_dist := reg_preds_dist self ++ [m4];
     reg_preds := reg_preds self ++ [m5];
     proj := proj self; training := training self |}.

(** The attribute assignments of [initialize_biases]. *)
Definition set_projections (self : Detect) (cp rd rp : list module)
    (pj : parameter) (pc : conv2d) : Detect :=
  {| nc := nc self; no := no self; nl := nl self; grid := grid self;
     prior_prob := prior_prob self; inplace := inplace self; stride := stride self;
     use_dfl := use_dfl self; reg_max := reg_max self; proj_conv := pc;
     grid_cell_offset := grid_cell_offset self; grid_cell_size := grid_cell_size self;
     stems := stems self; cls_convs := cls_convs self; reg_convs := reg_convs self;
     cls_preds := cp; reg_preds_dist := rd; reg_preds := rp;
     proj := Some pj; training := training self |}.


(** [self.eval()] and [self.train()]. *)
Definition set_training (self : Detect) (mode : bool) : Detect :=
  {| nc := nc self; no := no self; nl := nl self; grid := grid self;
     prior_prob := prior_prob self; inplace := inplace self; stride := stride self;
     use_dfl := use_dfl self; reg_max := reg_max self; proj_conv := proj_conv self;
     grid_cell_offset := grid_cell_offset self; grid_cell_size := grid_cell_size self;
     stems := stems self; cls_convs := cls_convs self; reg_convs := reg_convs self;
     cls_preds := cls_preds self; reg_preds_dist := reg_preds_dist self;
     reg_preds := reg_preds self; proj := proj self; training := mode |}.

(** ** Anchors and box decoding *)

Inductive box_format : Set := xyxy | xywh.

Definition shape_hw (t : tensor) : result (nat * nat) :=
  match shape t with
  | [_; _; h; w] => Ok (h, w)
  | _ => Raise ValueError
  end.

(** The anchor points of one [h x w] scale, row-major: cell [(r, c)] has
    the point [(c + offset, r + offset)]. *)
Definition scale_anchor_grid (offset : R) (h w : nat) : list (R * R) :=
  flat_map (fun r => map (fun c => (INR c + offset, INR r + offset)%R) (seq 0 w)) (seq 0 h).

(** Modelled from the spec: [generate_anchors] of
    [yolov6.assigners.anchor_generator], which is not among the sources, on
    the path the head takes ([is_eval=True], [mode='af']). Section 4.1: one
    anchor point per spatial location, scale-major then row-major, and the
    stride of scale [i] repeated [h_i * w_i] times; it fails when the stride
    list and the feature maps differ in number, or when a feature map has
    zero spatial extent. The grid cell size plays no part on this path. *)
Definition generate_anchors (feats : list tensor) (fpn_strides : list Z)
    (cell_size cell_offset : R) : result (list (R * R) * list R) :=
  if negb (length fpn_strides =? length feats) then Raise ValueError
  else
    hws ← mapM_result shape_hw feats;
    if existsb (fun hw => fst hw * snd hw =? 0) hws then Raise ValueError
    else Ok (flat_map (fun hw => scale_anchor_grid cell_offset (fst hw) (snd hw)) hws,
             flat_map (fun shw => replicate (fst (snd shw) * snd (snd shw)) (IZR (fst shw)))
                      (zip fpn_strides hws)).

(** One box from the distances [(left, top, right, bottom)] to an anchor. *)
Definition decode_box (fmt : box_format) (l t r b : R) (anchor : R * R) : list R :=
  let x1 := (fst anchor - l)%R in
  let y1 := (snd anchor - t)%R in
  let x2 := (fst anchor + r)%R in
  let y2 := (snd anchor + b)%R in
  match fmt with
  | xyxy => [x1; y1; x2; y2]
  | xywh => [((x1 + x2) / 2)%R; ((y1 + y2) / 2)%R; (x2 - x1)%R; (y2 - y1)%R]
  end.

(** Modelled from the spec: [dist2bbox] of [yolov6.utils.general], which is
    not among the sources. Section 4.2: from N distance vectors and N
    matching anchor points, N boxes in the chosen format; the spec gives no
    result for counts that differ, which is an error here. *)
Definition dist2bbox (distance : tensor) (anchor_points : list (R * R))
    (fmt : box_format) : result tensor :=
  match shape distance with
  | [n; 4] =>
      if n =? length anchor_points
      then Ok {| shape := [n; 4];
                 data := flat_map (fun i =>
                           decode_box fmt (nth (4 * i) (data distance) 0%R)
                                          (nth (4 * i + 1) (data distance) 0%R)
                                          (nth (4 * i + 2) (data distance) 0%R)
                                          (nth (4 * i + 3) (data distance) 0%R)
                                          (nth i anchor_points (0%R, 0%R)))
                           (seq 0 n) |}
      else Raise RuntimeError
  | _ => Raise RuntimeError
  end.

(** The values of the inference loop's local variables at the end of one
    round ([f_decoded] is [pred_bboxes] before the stride is applied). *)
Record scale_frame : Type := mkFrame {
  f_start_idx : nat;
  f_end_idx : nat;
  f_scale_anchor_points : list (R * R);
  f_scale_stride : list R;
  f_cls_output : tensor;
  f_reg_output : tensor;
  f_decoded : tensor;
  f_pred_bboxes : tensor;
  f_scale_output : tensor
}.

(** What [forward] returns. The feature-map list is a Python object: the
    training result holds a reference to it. *)
Definition loc : Type := nat.
Definition heap : Type := gmap nat (list tensor).

Inductive output : Type :=
  | TrainingOutput (x : loc) (cls_score_list reg_distri_list reg_lrtb_list : tensor)
  | InferenceOutput (outputs : list tensor).

Section Model.

(** The value torch gives a freshly created parameter of a given shape. *)
Variable default_init : list nat -> tensor.

(** What calling a sub-module on a tensor computes. *)
Variable run_module : module -> tensor -> result tensor.

(** [nn.Conv2d(in_channels, out_channels, kernel_size, bias=with_bias)] *)
Definition nn_Conv2d (cin cout ksize : nat) (with_bias : bool) : conv2d :=
  {| in_channels := cin; out_channels := cout; kernel_size := ksize;
     weight := nn_Parameter (default_init [cout; cin; ksize; ksize]) true;
     bias := if with_bias then Some (nn_Parameter (default_init [cout]) true) else None |}.

Definition build_effidehead_layer (channels_list : list nat)
    (num_anchors num_classes reg_max : nat) : result (list module) :=
  c6 ← getitem channels_list 6;
  c8 ← getitem channels_list 8;
  c10 ← getitem channels_list 10;
  Ok [ (* stem0 *) ConvBNSiLU c6 c6 1 1;
       (* cls_conv0 *) ConvBNSiLU c6 c6 3 1;
       (* reg_conv0 *) ConvBNSiLU c6 c6 3 1;
       (* cls_pred0 *) Conv2d (nn_Conv2d c6 (num_classes * num_anchors) 1 true);
       (* reg_pred0 *) Conv2d (nn_Conv2d c6 (4 * (reg_max + num_anchors)) 1 true);
       (* reg_pred0_1 *) Conv2d (nn_Conv2d c6 (4 * num_anchors) 1 true);
       (* stem1 *) ConvBNSiLU c8 c8 1 1;
       (* cls_conv1 *) ConvBNSiLU c8 c8 3 1;
       (* reg_conv1 *) ConvBNSiLU c8 c8 3 1;
       (* cls_pred1 *) Conv2d (nn_Conv2d c8 (num_classes * num_anchors) 1 true);
       (* reg_pred1 *) Conv2d (nn_Conv2d c8 (4 * (reg_max + num_anchors)) 1 true);
       (* reg_pred1_1 *) Conv2d (nn_Conv2d c8 (4 * num_anchors) 1 true);
       (* stem2 *) ConvBNSiLU c10 c10 1 1;
       (* cls_conv2 *) ConvBNSiLU c10 c10 3 1;
       (* reg_conv2 *) ConvBNSiLU c10 c10 3 1;
       (* cls_pred2 *) Conv2d (nn_Conv2d c10 (num_classes * num_anchors) 1 true);
       (* reg_pred2 *) Conv2d (nn_Conv2d c10 (4 * (reg_max + num_anchors)) 1 true);
       (* reg_pred2_1 *) Conv2d (nn_Conv2d c10 (4 * num_anchors) 1 true) ].

(** One round of the constructor's loop. *)
Definition init_scale (head_layers : list module) (self : Detect) (i : nat) : result Detect :=
  let idx := i * 6 in
  m0 ← getitem head_layers idx;
  m1 ← getitem head_layers (idx + 1);
  m2 ← getitem head_layers (idx + 2);
  m3 ← getitem head_layers (idx + 3);
  m4 ← getitem head_layers (idx + 4);
  m5 ← getitem head_layers (idx + 5);
  Ok (append_scale self m0 m1 m2 m3 m4 m5).

(** [Detect.__init__]; a module is in training mode when created. *)
Definition Detect_init (num_classes num_layers : nat) (inplace : bool)
    (head_layers : option (list module)) (use_dfl : bool) (reg_max : nat) : result Detect :=
  match head_layers with
  | None => Raise AssertionError
  | Some head_layers =>
      foldM (init_scale head_layers) (seq 0 num_layers)
        {| nc := num_classes; no := num_classes + 5; nl := num_layers;
           grid := replicate num_layers (torch_zeros [1]);
           prior_prob := (1 / 100)%R; inplace := inplace;
           stride := [8; 16; 32]%Z;
           use_dfl := use_dfl; reg_max := reg_max;
           proj_conv := nn_Conv2d (reg_max + 1) 1 1 false;
           grid_cell_offset := (1 / 2)%R; grid_cell_size := 5%R;
           stems := []; cls_convs := []; reg_convs := [];
           cls_preds := []; reg_preds_dist := []; reg_preds := [];
           proj := None; training := true |}
  end.

(** The body of each of the three loops of [initialize_biases]: the bias
    is filled with [v], the weight with zero, both re-wrapped as trainable
    parameters. *)
Definition init_pred (v : R) (m : module) : result module :=
  match m with
  | Conv2d conv =>
      match bias conv with
      | Some b =>
          let b := fill_ (view_flat (p_data b)) v in
          let w := fill_ (p_data (weight conv)) 0%R in
          Ok (Conv2d {| in_channels := in_channels conv;
                        out_channels := out_channels conv;
                        kernel_size := kernel_size conv;
                        weight := nn_Parameter w true;
                        bias := Some (nn_Parameter (view_flat b) true) |})
      | None => Raise AttributeError
      end
  | ConvBNSiLU _ _ _ _ => Raise AttributeError
  end.

(** [Detect.initialize_biases]. [math.log] and the division are followed on
    the range of a probability, 0 < prior_prob < 1. *)
Definition initialize_biases (self : Detect) : result Detect :=
  cp ← mapM_result (init_pred (- ln ((1 - prior_prob self) / prior_prob self))%R) (cls_preds self);
  rd ← mapM_result (init_pred 1%R) (reg_preds_dist self);
  rp ← mapM_result (init_pred 1%R) (reg_preds self);
  let pj := nn_Parameter (linspace 0%R (INR (reg_max self)) (reg_max self + 1)) false in
  w ← reshape (p_data pj) [1; reg_max self + 1; 1; 1];
  Ok (set_projections self cp rd rp pj
        {| in_channels := in_channels (proj_conv self);
           out_channels := out_channels (proj_conv self);
           kernel_size := kernel_size (proj_conv self);
           weight := nn_Parameter w false;
           bias := bias (proj_conv self) |}).

(** [self.<list>[i](t)] *)
Definition call (ms : list module) (i : nat) (t : tensor) : result tensor :=
  m ← getitem ms i; run_module m t.

(** [b, _, h, w = t.shape] *)
Definition shape_bhw (t : tensor) : result (nat * nat * nat) :=
  match shape t with
  | [b; _; h; w] => Ok (b, h, w)
  | _ => Raise ValueError
  end.

(** One round of the inference loop, entered with [start_idx]. *)
Definition inference_scale (self : Detect) (x : list tensor)
    (anchor_points : list (R * R)) (stride_tensor : list R)
    (start_idx i : nat) : result scale_frame :=
  xi ← getitem x i;
  '(b, h, w) ← shape_bhw xi;
  feat ← call (stems self) i xi;
  cls_feat ← call (cls_convs self) i feat;
  reg_feat ← call (reg_convs self) i feat;
  cls_output ← call (cls_preds self) i cls_feat;
  reg_output ← call (reg_preds self) i reg_feat;
  let cls_output := torch_sigmoid cls_output in
  cls_output ← permute0231 cls_output;
  reg_output ← permute0231 reg_output;
  let end_idx := start_idx + h * w in
  let scale_anchor_points := py_slice anchor_points start_idx end_idx in
  let scale_stride := py_slice stride_tensor start_idx end_idx in
  rows ← reshape_rows4 reg_output;
  decoded ← dist2bbox rows scale_anchor_points xywh;
  pred_bboxes ← reshape decoded [b; h; w; 4];
  s0 ← getitem scale_stride 0;
  let pred_bboxes := mul_scalar pred_bboxes s0 in
  scale_output ← torch_cat_last [pred_bboxes; torch_ones [b; h; w; 1]; cls_output];
  Ok {| f_start_idx := start_idx; f_end_idx := end_idx;
        f_scale_anchor_points := scale_anchor_points;
        f_scale_stride := scale_stride;
        f_cls_output := cls_output; f_reg_output := reg_output;
        f_decoded := decoded; f_pred_bboxes := pred_bboxes;
        f_scale_output := scale_output |}.

(** The loop state is the running [start_idx] and the rounds done so far. *)
Definition inference_step (self : Detect) (x : list tensor)
    (anchor_points : list (R * R)) (stride_tensor : list R)
    (st : nat * list scale_frame) (i : nat) : result (nat * list scale_frame) :=
  fr ← inference_scale self x anchor_points stride_tensor (fst st) i;
  Ok (f_end_idx fr, snd st ++ [fr]).

(** The inference branch of [forward], with the locals of every round.
    [x[0]] is read for the device before the anchors are generated. *)
Definition inference_frames (self : Detect) (x : list tensor) : result (list scale_frame) :=
  _ ← getitem x 0;
  anchors ← generate_anchors x (stride self) (grid_cell_size self) (grid_cell_offset self);
  st ← foldM (inference_step self x (fst anchors) (snd anchors)) (seq 0 (nl self)) (0, []);
  Ok (snd st).

(** The inference branch of [forward]: [outputs]. *)
Definition forward_inference (self : Detect) (x : list tensor) : result (list tensor) :=
  frames ← inference_frames self x;
  Ok (map f_scale_output frames).

(** [t.flatten(2).permute((0, 2, 1))] *)
Definition flatten_permute (t : tensor) : result tensor :=
  t ← flatten2 t; permute021 t.

(** One round of the training loop on the list [x]: the list as the round
    leaves it, and the three tensors the round appends. The assignment to
    [x[i]] survives an exception raised later in the round. *)
Definition training_scale (self : Detect) (x : list tensor) (i : nat)
    : list tensor * result (tensor * tensor * tensor) :=
  match (m ← getitem (stems self) i; xi ← getitem x i; run_module m xi) with
  | Raise e => (x, Raise e)
  | Ok xi =>
      (<[i := xi]> x,
       cls_feat ← call (cls_convs self) i xi;
       cls_output ← call (cls_preds self) i cls_feat;
       reg_feat ← call (reg_convs self) i xi;
       reg_output ← call (reg_preds_dist self) i reg_feat;
       reg_output_lrtb ← call (reg_preds self) i reg_feat;
       let cls_output := torch_sigmoid cls_output in
       c ← flatten_permute cls_output;
       d ← flatten_permute reg_output;
       l ← flatten_permute reg_output_lrtb;
       Ok (c, d, l))
  end.

Fixpoint training_loop (self : Detect) (idxs : list nat) (x : list tensor)
    (acc : list tensor * list tensor * list tensor)
    : list tensor * result (list tensor * list tensor * list tensor) :=
  match idxs with
  | [] => (x, Ok acc)
  | i :: rest =>
      match training_scale self x i with
      | (x', Raise e) => (x', Raise e)
      | (x', Ok (c, d, l)) =>
          training_loop self rest x'
            (acc.1.1 ++ [c], acc.1.2 ++ [d], acc.2 ++ [l])
      end
  end.

(** The training branch of [forward] on the contents of the list [x]: the
    contents afterwards, and the three concatenated tensors. *)
Definition forward_training (self : Detect) (x : list tensor)
    : list tensor * result (tensor * tensor * tensor) :=
  let r := training_loop self (seq 0 (nl self)) x ([], [], []) in
  (r.1,
   lists ← r.2;
   cls_score_list ← torch_cat lists.1.1 1;
   reg_distri_list ← torch_cat lists.1.2 1;
   reg_lrtb_list ← torch_cat lists.2 1;
   Ok (cls_score_list, reg_distri_list, reg_lrtb_list)).

(** [Detect.forward], called with a reference [x] to the feature-map
    list: the heap afterwards and the result. *)
Definition forward (self : Detect) (x : loc) (h : heap) : heap * result output :=
  match h !! x with
  | None => (h, Raise RuntimeError)
  | Some xs =>
      if training self then
        let r := forward_training self xs in
        (<[x := r.1]> h,
         out ← r.2; Ok (TrainingOutput x out.1.1 out.1.2 out.2))
      else
        (h, outputs ← forward_inference self xs; Ok (InferenceOutput outputs))
  end.

End Model.

(** ** A concrete head

    The pointwise (1 x 1) convolution, used to run the head on concrete
    feature maps: entry [(n, k, p)] of the result is
    [act (bias k + sum over c of weight k c * input (n, c, p))]. *)

Definition sum_R (l : list R) : R := foldr Rplus 0%R l.

Definition pointwise_conv (cin cout : nat) (wgt : nat -> nat -> R) (bs : nat -> R)
    (act : R -> R) (t : tensor) : result tensor :=
  match shape t with
  | [b; c; h; w] =>
      if c =? cin
      then Ok {| shape := [b; cout; h; w];
                 data := flat_map (fun n =>
                           flat_map (fun k =>
                             map (fun p =>
                               act (bs k + sum_R (map (fun c' =>
                                      wgt k c' * nth ((n * cin + c') * (h * w) + p) (data t) 0)
                                    (seq 0 cin)))%R)
                               (seq 0 (h * w)))
                             (seq 0 cout))
                           (seq 0 b) |}
      else Raise RuntimeError
  | _ => Raise RuntimeError
  end.

Definition silu (v : R) : R := (v * sigmoid v)%R.

(** A [Conv2d] of kernel size 1 computes the pointwise convolution of its
    weight and bias; a [ConvBNSiLU] is stood for by the pointwise
    convolution with unit weights followed by SiLU. *)
Definition sample_run (m : module) : tensor -> result tensor :=
  match m with
  | ConvBNSiLU cin cout _ _ =>
      pointwise_conv cin cout (fun _ _ => 1%R) (fun _ => 0%R) silu
  | Conv2d conv =>
      pointwise_conv (in_channels conv) (out_channels conv)
        (fun k c => nth (k * in_channels conv + c) (data (p_data (weight conv))) 0%R)
        (fun k => match bias conv with
                  | Some b => nth k (data (p_data b)) 0%R
                  | None => 0%R
                  end)
        id
  end.

Definition empty_head : Detect :=
  {| nc := 0; no := 5; nl := 0; grid := []; prior_prob := (1 / 100)%R; inplace := true;
     stride := [8; 16; 32]%Z; use_dfl := true; reg_max := 0;
     proj_conv := nn_Conv2d torch_zeros 1 1 1 false;
     grid_cell_offset := (1 / 2)%R; grid_cell_size := 5%R;
     stems := []; cls_convs := []; reg_convs := [];
     cls_preds := []; reg_preds_dist := []; reg_preds := [];
     proj := None; training := true |}.

Definition from_result {A} (d : A) (r : result A) : A :=
  match r with Ok a => a | Raise _ => d end.

(** Two channels on every scale, two classes, one anchor, [reg_max = 1]. *)
Definition sample_layers : list module :=
  from_result [] (build_effidehead_layer torch_zeros (replicate 11 2) 1 2 1).

Definition sample_built : Detect :=
  from_result empty_head (Detect_init torch_zeros 2 3 true (Some sample_layers) true 1).

(** Built, then initialised: in training mode. *)
Definition sample_head : Detect :=
  from_result empty_head (initialize_biases sample_built).

Definition ramp_tensor (s : list nat) : tensor :=
  {| shape := s; data := map (fun i => IZR (Z.of_nat i)) (seq 0 (numel s)) |}.

(** Feature maps 4x4, 2x2 and 1x1 with batch size 2. *)
Definition sample_x : list tensor :=
  [ramp_tensor [2; 2; 4; 4]; ramp_tensor [2; 2; 2; 2]; ramp_tensor [2; 2; 1; 1]].

(** Feature maps 2x2, 1x1 and 1x1 with batch size 1. *)
Definition sample_x1 : list tensor :=
  [ramp_tensor [1; 2; 2; 2]; ramp_tensor [1; 2; 1; 1]; ramp_tensor [1; 2; 1; 1]].

(** Feature maps 2x2, 1x1 and 1x1 with batch size 2. *)
Definition sample_x2 : list tensor :=
  [ramp_tensor [2; 2; 2; 2]; ramp_tensor [2; 2; 1; 1]; ramp_tensor [2; 2; 1; 1]].

Definition sample_heap : heap := {[ 7 := sample_x1 ]}.

(** What the sample head returns in training mode on the list at reference 7. *)
Definition sample_training_output : output :=
  from_result (InferenceOutput []) (forward sample_run sample_head 7 sample_heap).2.

(** The sample head in inference mode, and the locals of its three rounds
    on the batch-1 feature maps. *)
Definition sample_eval_head : Detect := set_training sample_head false.

Definition sample_frames : list scale_frame :=
  from_result [] (inference_frames sample_run sample_eval_head sample_x1).

(** The head on two scales only, given the twelve layers of two scales. *)
Definition two_scale_layers : list module := take 12 sample_layers.

(** A list of two feature maps only, for the head of three scales. *)
Definition short_heap : heap := {[ 7 := take 2 sample_x1 ]}.

(** The three tensors of the sample head in training mode, batch size 2. *)
Definition sample_training_tensors : tensor * tensor * tensor :=
  from_result (torch_zeros [], torch_zeros [], torch_zeros [])
    (forward_training sample_run sample_head sample_x).2.

(** The heap after one training call on the list at reference 7, and
    what a second call on the same reference returns. *)
Definition sample_heap_once : heap := (forward sample_run sample_head 7 sample_heap).1.

Definition sample_heap_twice : heap := (forward sample_run sample_head 7 sample_heap_once).1.

Definition sample_training_output_twice : output :=
  from_result (InferenceOutput []) (forward sample_run sample_head 7 sample_heap_once).2.



Definition sample_train0 : tensor * tensor * tensor :=
  from_result (torch_zeros [], torch_zeros [], torch_zeros [])
    (training_scale sample_run sample_head sample_x1 0).2.

(** ** Auxiliary notions for the statements *)

(** The modules [head_layers[i * 6 + off]] for [i] in [idxs]. *)
Definition layers_at (hl : list module) (off : nat) (idxs : list nat) : list module :=
  omap (fun i => hl !! (i * 6 + off)) idxs.

(** [self] after the rounds [idxs] of the constructor's loop. *)
Definition with_layers (self : Detect) (hl : list module) (idxs : list nat) : Detect :=
  {| nc := nc self; no := no self; nl := nl self; grid := grid self;
     prior_prob := prior_prob self; inplace := inplace self; stride := stride self;
     use_dfl := use_dfl self; reg_max := reg_max self; proj_conv := proj_conv self;
     grid_cell_offset := grid_cell_offset self; grid_cell_size := grid_cell_size self;
     stems := stems self ++ layers_at hl 0 idxs;
     cls_convs := cls_convs self ++ layers_at hl 1 idxs;
     reg_convs := reg_convs self ++ layers_at hl 2 idxs;
     cls_preds := cls_preds self ++ layers_at hl 3 idxs;
     reg_preds_dist := reg_preds_dist self ++ layers_at hl 4 idxs;
     reg_preds := reg_preds self ++ layers_at hl 5 idxs;
     proj := proj self; training := training self |}.

(** [m'] is the projection [m] after [initialize_biases]: same
    configuration and sizes, every bias entry [v], every weight entry 0,
    both trainable. *)
Definition initialised (v : R) (m m' : module) : Prop :=
  exists conv b conv' b',
    m = Conv2d conv /\ bias conv = Some b
    /\ m' = Conv2d conv' /\ bias conv' = Some b'
    /\ in_channels conv' = in_channels conv
    /\ out_channels conv' = out_channels conv
    /\ kernel_size conv' = kernel_size conv
    /\ data (p_data b') = replicate (length (data (p_data b))) v
    /\ requires_grad b' = true
    /\ shape (p_data (weight conv')) = shape (p_data (weight conv))
    /\ data (p_data (weight conv'))
       = replicate (length (data (p_data (weight conv)))) 0%R
    /\ requires_grad (weight conv') = true.


(** An entry is a confidence: it lies in the closed unit interval. *)
Definition in_unit (v : R) : Prop := (0 <= v <= 1)%R.

(** [h * w] of a feature map. *)
Definition spatial_size (t : tensor) : nat :=
  match shape t with
  | [_; _; h; w] => h * w
  | _ => 0
  end.

(** The anchors of the feature maps [x]: one per spatial location. *)
Definition total_anchors (x : list tensor) : nat := sum_list (map spatial_size x).

(** The anchors before scale [k + j], counted from scale [k]. *)
Definition anchors_before (x : list tensor) (k j : nat) : nat :=
  sum_list (map spatial_size (take j (drop k x))).

(** [(h, w)] of a feature map. *)
Definition hw_of (t : tensor) : nat * nat :=
  match shape t with
  | [_; _; h; w] => (h, w)
  | _ => (0, 0)
  end.

(** The values of the training loop's local variables at the end of one
    round ([t_cls_raw] is [cls_output] before the sigmoid, and [t_cls],
    [t_dist], [t_lrtb] are the three tensors the round appends). *)
Record train_frame : Type := mkTrainFrame {
  t_feat : tensor;
  t_cls_feat : tensor;
  t_cls_raw : tensor;
  t_reg_feat : tensor;
  t_reg_output : tensor;
  t_reg_output_lrtb : tensor;
  t_cls : tensor;
  t_dist : tensor;
  t_lrtb : tensor
}.

Section Contracts.

Variable run_module : module -> tensor -> result tensor.

(** The interface of a sub-module: on a well-formed
    [(batch, in_channels, H, W)] tensor it returns a well-formed
    [(batch, out_channels, H, W)] tensor. *)
Definition respects (m : module) : Prop :=
  forall t b h w,
    shape t = [b; module_in_channels m; h; w] -> wf_tensor t ->
    exists t', run_module m t = Ok t'
               /\ shape t' = [b; module_out_channels m; h; w] /\ wf_tensor t'.

(** Round [i] of the training loop took [xi] to the locals [fr]. *)
Definition training_round (self : Detect) (i : nat) (xi : tensor) (fr : train_frame) : Prop :=
  call run_module (stems self) i xi = Ok (t_feat fr)
  /\ call run_module (cls_convs self) i (t_feat fr) = Ok (t_cls_feat fr)
  /\ call run_module (cls_preds self) i (t_cls_feat fr) = Ok (t_cls_raw fr)
  /\ call run_module (reg_convs self) i (t_feat fr) = Ok (t_reg_feat fr)
  /\ call run_module (reg_preds_dist self) i (t_reg_feat fr) = Ok (t_reg_output fr)
  /\ call run_module (reg_preds self) i (t_reg_feat fr) = Ok (t_reg_output_lrtb fr)
  /\ flatten_permute (torch_sigmoid (t_cls_raw fr)) = Ok (t_cls fr)
  /\ flatten_permute (t_reg_output fr) = Ok (t_dist fr)
  /\ flatten_permute (t_reg_output_lrtb fr) = Ok (t_lrtb fr).


(** Round [i] of the inference loop, entered with [start], ended with the
    locals [fr]: the feature map is [(b, c, h, w)], the slices are the
    [h * w] entries from [start] on, the boxes are decoded from the direct
    regression output against the anchor slice and multiplied by the first
    entry of the stride slice. *)
Definition inference_round (self : Detect) (x : list tensor)
    (anchor_points : list (R * R)) (stride_tensor : list R)
    (start i : nat) (fr : scale_frame) : Prop :=
  exists xi b c h w feat cls_feat reg_feat cls_raw reg_raw rows boxes s0,
    x !! i = Some xi /\ shape xi = [b; c; h; w]
    /\ call run_module (stems self) i xi = Ok feat
    /\ call run_module (cls_convs self) i feat = Ok cls_feat
    /\ call run_module (reg_convs self) i feat = Ok reg_feat
    /\ call run_module (cls_preds self) i cls_feat = Ok cls_raw
    /\ call run_module (reg_preds self) i reg_feat = Ok reg_raw
    /\ permute0231 (torch_sigmoid cls_raw) = Ok (f_cls_output fr)
    /\ permute0231 reg_raw = Ok (f_reg_output fr)
    /\ f_start_idx fr = start
    /\ f_end_idx fr = start + h * w
    /\ f_scale_anchor_points fr = py_slice anchor_points start (start + h * w)
    /\ f_scale_stride fr = py_slice stride_tensor start (start + h * w)
    /\ reshape_rows4 (f_reg_output fr) = Ok rows
    /\ dist2bbox rows (f_scale_anchor_points fr) xywh = Ok (f_decoded fr)
    /\ reshape (f_decoded fr) [b; h; w; 4] = Ok boxes
    /\ f_scale_stride fr !! 0 = Some s0
    /\ f_pred_bboxes fr = mul_scalar boxes s0
    /\ torch_cat_last [f_pred_bboxes fr; torch_ones [b; h; w; 1]; f_cls_output fr]
       = Ok (f_scale_output fr).

End Contracts.

Section Fits.

Variable run_module : module -> tensor -> result tensor.

(** Scale [i] of the head fits the feature map [xi] of batch size [b],
    with projections of [kc], [kd] and [kl] output channels: [scale_ready]
    for any three channel counts. *)
Definition scale_fits (self : Detect) (b i : nat) (xi : tensor) (kc kd kl : nat) : Prop :=
  exists c h w st cc rc cp rd rp,
    shape xi = [b; c; h; w] /\ wf_tensor xi
    /\ stems self !! i = Some st /\ cls_convs self !! i = Some cc
    /\ reg_convs self !! i = Some rc /\ cls_preds self !! i = Some cp
    /\ reg_preds_dist self !! i = Some rd /\ reg_preds self !! i = Some rp
    /\ respects run_module st /\ respects run_module cc /\ respects run_module rc
    /\ respects run_module cp /\ respects run_module rd /\ respects run_module rp
    /\ module_in_channels st = c
    /\ module_in_channels cc = module_out_channels st
    /\ module_in_channels rc = module_out_channels st
    /\ module_in_channels cp = module_out_channels cc
    /\ module_in_channels rd = module_out_channels rc
    /\ module_in_channels rp = module_out_channels rc
    /\ module_out_channels cp = kc
    /\ module_out_channels rd = kd
    /\ module_out_channels rp = kl.

End Fits.

(** [out] holds the entries of [f raw] with the channel axis moved last
    and the trailing axes flattened: entry [(n, j, k)] of [out] is [f] of
    entry [(n, k, j)] of [raw], where [j] is the row-major offset of a
    position in the trailing axes ([r * w + q] on an [h x w] map). *)
Definition rows_of (f : R -> R) (raw out : tensor) : Prop :=
  exists b k d2 rest,
    shape raw = b :: k :: d2 :: rest
    /\ shape out = [b; numel (d2 :: rest); k]
    /\ forall n j kk, n < b -> j < numel (d2 :: rest) -> kk < k ->
         nth ((n * numel (d2 :: rest) + j) * k + kk) (data out) 0%R
         = nth ((n * k + kk) * numel (d2 :: rest) + j) (map f (data raw)) 0%R.

(** Two modules of the same channel counts and kernel size. *)
Definition same_config (m m' : module) : Prop :=
  module_in_channels m' = module_in_channels m
  /\ module_out_channels m' = module_out_channels m
  /\ module_kernel_size m' = module_kernel_size m.

(** * Properties *)

(** ** The result monad *)

Lemma bind_Ok {A B} (m : result A) (f : A -> result B) (b : B) :
  m ≫= f = Ok b -> exists a, m = Ok a /\ f a = Ok b.
Proof. destruct m as [a|e]; simpl; [eauto | discriminate]. Qed.

Lemma getitem_Ok {A} (l : list A) (i : nat) (a : A) :
  getitem l i = Ok a <-> l !! i = Some a.
Proof.
  unfold getitem. destruct (l !! i); split; intros H; congruence.
Qed.

Lemma getitem_lt {A} (l : list A) (i : nat) :
  i < length l -> exists a, getitem l i = Ok a /\ l !! i = Some a.
Proof.
  intros Hi. destruct (lookup_lt_is_Some_2 l i Hi) as [a Ha].
  exists a. split; [by apply getitem_Ok | done].
Qed.

Lemma getitem_ge {A} (l : list A) (i : nat) :
  length l <= i -> getitem l i = Raise IndexError.
Proof.
  intros Hi. unfold getitem. by rewrite (lookup_ge_None_2 l i Hi).
Qed.

(** Splits [x ← m; k = Ok r] in the hypotheses into its steps. *)
Ltac inv_bind :=
  repeat match goal with
  | H : Ok _ = Ok _ |- _ => injection H as H; try subst
  | H : Raise _ = Ok _ |- _ => discriminate H
  | H : (_ ≫= _) = Ok _ |- _ =>
      let a := fresh "a" in
      let Ha := fresh "Ha" in
      apply bind_Ok in H as (a & Ha & H); simpl in H
  end.

Lemma foldM_app {S B} (f : S -> B -> result S) (l1 l2 : list B) (s : S) :
  foldM f (l1 ++ l2) s = foldM f l1 s ≫= foldM f l2.
Proof.
  revert s. induction l1 as [|i l1 IH]; intros s; simpl; [done|].
  destruct (f s i); simpl; [apply IH | done].
Qed.

Lemma mapM_result_Ok {A B} (f : A -> result B) (l : list A) (l' : list B) :
  mapM_result f l = Ok l' <-> Forall2 (fun a b => f a = Ok b) l l'.
Proof.
  revert l'. induction l as [|a l IH]; intros l'; simpl.
  - split; intros H; [injection H as <-; constructor | by inversion H].
  - split; intros H.
    + inv_bind. constructor; [done | by apply IH].
    + inversion H as [|? b ? bs Hb Hbs]; subst. rewrite Hb. simpl.
      apply IH in Hbs. by rewrite Hbs.
Qed.

(** ** [build_effidehead_layer] *)

Lemma build_effidehead_layer_Ok init cl na ncl rm :
  11 <= length cl ->
  exists hl, build_effidehead_layer init cl na ncl rm = Ok hl /\ length hl = 18.
Proof.
  intros Hlen. unfold build_effidehead_layer.
  destruct (getitem_lt cl 6) as (c6 & -> & _); [lia|].
  destruct (getitem_lt cl 8) as (c8 & -> & _); [lia|].
  destruct (getitem_lt cl 10) as (c10 & -> & _); [lia|].
  simpl. eauto.
Qed.

(** What the builder gives each scale's three projections. *)
Lemma build_effidehead_layer_channels init cl na ncl rm hl i :
  build_effidehead_layer init cl na ncl rm = Ok hl ->
  i < 3 ->
  module_out_channels <$> hl !! (6 * i + 3) = Some (ncl * na)
  /\ module_out_channels <$> hl !! (6 * i + 4) = Some (4 * (rm + na))
  /\ module_out_channels <$> hl !! (6 * i + 5) = Some (4 * na).
Proof.
  unfold build_effidehead_layer. intros H Hi. inv_bind.
  destruct i as [|[|[|i]]]; [by simpl..|lia].
Qed.

(** With the single anchor of the anchor-free head, the distribution-form
    projection has [4 * (reg_max + 1)] channels. *)
Lemma build_effidehead_layer_one_anchor init cl ncl rm hl i :
  build_effidehead_layer init cl 1 ncl rm = Ok hl ->
  i < 3 ->
  module_out_channels <$> hl !! (6 * i + 3) = Some ncl
  /\ module_out_channels <$> hl !! (6 * i + 4) = Some (4 * (rm + 1))
  /\ module_out_channels <$> hl !! (6 * i + 5) = Some 4.
Proof.
  intros H Hi.
  destruct (build_effidehead_layer_channels _ _ _ _ _ _ _ H Hi) as (H3 & H4 & H5).
  rewrite H3, H4, H5. by rewrite Nat.mul_1_r.
Qed.

(** C8, at [num_anchors = 2], [reg_max = 16]: the distribution-form
    regression projection of every scale is built with
    [4 * (reg_max + num_anchors) = 72] output channels, where four sides of
    [reg_max + 1] bins are [4 * (16 + 1) = 68]; the classification and the
    direct projections have [num_classes * num_anchors] and
    [4 * num_anchors] channels. *)
Theorem build_effidehead_layer_two_anchors :
  map module_out_channels <$> build_effidehead_layer torch_zeros (replicate 11 64) 2 80 16
  = Ok [64; 64; 64; 160; 72; 8; 64; 64; 64; 160; 72; 8; 64; 64; 64; 160; 72; 8]
  /\ 4 * (16 + 1) = 68.
Proof. split; reflexivity. Qed.

(** ** Construction *)

Lemma getitem_Raise {A} (l : list A) (i : nat) (e : exn) :
  getitem l i = Raise e -> e = IndexError /\ length l <= i.
Proof.
  unfold getitem. destruct (l !! i) eqn:E; [discriminate|].
  intros [= <-]. split; [done | by apply lookup_ge_None].
Qed.

Lemma init_scale_Ok hl self i :
  6 * i + 6 <= length hl ->
  exists m0 m1 m2 m3 m4 m5,
    hl !! (i * 6 + 0) = Some m0 /\ hl !! (i * 6 + 1) = Some m1 /\
    hl !! (i * 6 + 2) = Some m2 /\ hl !! (i * 6 + 3) = Some m3 /\
    hl !! (i * 6 + 4) = Some m4 /\ hl !! (i * 6 + 5) = Some m5 /\
    init_scale hl self i = Ok (append_scale self m0 m1 m2 m3 m4 m5).
Proof.
  intros Hlen. unfold init_scale.
  destruct (getitem_lt hl (i * 6)) as (m0 & -> & H0); [lia|].
  destruct (getitem_lt hl (i * 6 + 1)) as (m1 & -> & H1); [lia|].
  destruct (getitem_lt hl (i * 6 + 2)) as (m2 & -> & H2); [lia|].
  destruct (getitem_lt hl (i * 6 + 3)) as (m3 & -> & H3); [lia|].
  destruct (getitem_lt hl (i * 6 + 4)) as (m4 & -> & H4); [lia|].
  destruct (getitem_lt hl (i * 6 + 5)) as (m5 & -> & H5); [lia|].
  exists m0, m1, m2, m3, m4, m5. rewrite Nat.add_0_r. by simpl.
Qed.

Lemma init_scale_short hl self i :
  length hl < 6 * i + 6 -> init_scale hl self i = Raise IndexError.
Proof.
  intros Hlen. unfold init_scale.
  repeat match goal with
  | |- (getitem ?l ?j ≫= _) = _ =>
      let E := fresh "E" in
      destruct (getitem l j) as [?|e] eqn:E; simpl;
      [ apply getitem_Ok, lookup_lt_Some in E
      | by apply getitem_Raise in E as [-> _] ]
  end.
  lia.
Qed.

Lemma init_loop_Ok hl m : forall k self,
  6 * (k + m) <= length hl ->
  foldM (init_scale hl) (seq k m) self = Ok (with_layers self hl (seq k m)).
Proof.
  induction m as [|m IH]; intros k self Hlen.
  - simpl. destruct self. unfold with_layers, layers_at. simpl.
    by rewrite !app_nil_r.
  - simpl.
    destruct (init_scale_Ok hl self k) as
      (m0 & m1 & m2 & m3 & m4 & m5 & H0 & H1 & H2 & H3 & H4 & H5 & ->); [lia|].
    simpl. rewrite IH by lia.
    unfold with_layers, layers_at. simpl.
    rewrite H0, H1, H2, H3, H4, H5. simpl.
    by rewrite <- !app_assoc.
Qed.

Lemma init_loop_short hl m : forall k self,
  6 * k <= length hl -> length hl < 6 * (k + m) ->
  foldM (init_scale hl) (seq k m) self = Raise IndexError.
Proof.
  induction m as [|m IH]; intros k self Hk Hlen; [lia|].
  simpl. destruct (decide (6 * k + 6 <= length hl)) as [Hok|Hshort].
  - destruct (init_scale_Ok hl self k Hok) as (? & ? & ? & ? & ? & ? & _ & _ & _ & _ & _ & _ & ->).
    simpl. apply IH; lia.
  - rewrite init_scale_short by lia. done.
Qed.

Lemma layers_at_seq hl off n :
  off < 6 -> 6 * n <= length hl ->
  length (layers_at hl off (seq 0 n)) = n
  /\ forall i, i < n -> layers_at hl off (seq 0 n) !! i = hl !! (6 * i + off).
Proof.
  intros Hoff. induction n as [|n IH]; intros Hlen; [split; [done | lia]|].
  destruct IH as [IHlen IHget]; [lia|].
  destruct (lookup_lt_is_Some_2 hl (n * 6 + off)) as [m Hm]; [lia|].
  assert (layers_at hl off (seq 0 (S n)) = layers_at hl off (seq 0 n) ++ [m]) as ->.
  { unfold layers_at. rewrite seq_S, omap_app. simpl. by rewrite Hm. }
  split; [rewrite length_app; simpl; lia|].
  intros i Hi. destruct (decide (i = n)) as [->|Hne].
  - rewrite lookup_app_r by lia. rewrite IHlen, Nat.sub_diag. simpl.
    rewrite <- Hm. f_equal. lia.
  - rewrite lookup_app_l by lia. apply IHget. lia.
Qed.

(** Construction succeeds exactly when the layers of every declared scale
    are there, and then the head is the initial one with those layers. *)
Lemma Detect_init_Ok init ncl n ip hl dfl rm :
  6 * n <= length hl ->
  exists self,
    Detect_init init ncl n ip (Some hl) dfl rm = Ok self
    /\ nc self = ncl /\ nl self = n /\ stride self = [8; 16; 32]%Z
    /\ reg_max self = rm /\ prior_prob self = (1 / 100)%R
    /\ grid_cell_offset self = (1 / 2)%R /\ training self = true
    /\ proj_conv self = nn_Conv2d init (rm + 1) 1 1 false
    /\ stems self = layers_at hl 0 (seq 0 n)
    /\ cls_convs self = layers_at hl 1 (seq 0 n)
    /\ reg_convs self = layers_at hl 2 (seq 0 n)
    /\ cls_preds self = layers_at hl 3 (seq 0 n)
    /\ reg_preds_dist self = layers_at hl 4 (seq 0 n)
    /\ reg_preds self = layers_at hl 5 (seq 0 n).
Proof.
  intros Hlen. unfold Detect_init. rewrite init_loop_Ok by (simpl; lia).
  eexists. split; [reflexivity|]. simpl. repeat split.
Qed.

Lemma Detect_init_short init ncl n ip hl dfl rm :
  length hl < 6 * n ->
  Detect_init init ncl n ip (Some hl) dfl rm = Raise IndexError.
Proof.
  intros Hlen. unfold Detect_init. apply init_loop_short; simpl; lia.
Qed.

(** C6, refuted as stated: with [num_layers = 2] and the twelve layers of
    two scales the constructor returns a head whose stride list has three
    entries. *)
Lemma Detect_init_two_layers_three_strides :
  exists self,
    Detect_init torch_zeros 2 2 true (Some two_scale_layers) true 1 = Ok self
    /\ nl self = 2 /\ length (stride self) = 3.
Proof.
  destruct (Detect_init_Ok torch_zeros 2 2 true two_scale_layers true 1)
    as (self & H & _ & Hnl & Hs & _); [simpl; lia|].
  exists self. rewrite Hs. done.
Qed.

(** C6, as amended: the constructor never compares the stride list with
    [num_layers]. It installs the stride list [8, 16, 32] whatever
    [num_layers] is, and returns a head exactly when [head_layers] holds at
    least [6 * num_layers] modules. *)
Theorem Detect_init_ignores_stride_length init ncl n ip hl dfl rm :
  (exists self, Detect_init init ncl n ip (Some hl) dfl rm = Ok self
                /\ nl self = n /\ stride self = [8; 16; 32]%Z)
  <-> 6 * n <= length hl.
Proof.
  split.
  - intros (self & H & _). destruct (decide (6 * n <= length hl)) as [|Hn]; [done|].
    rewrite Detect_init_short in H by lia. discriminate.
  - intros Hlen.
    destruct (Detect_init_Ok init ncl n ip hl dfl rm Hlen) as (self & H & _ & Hnl & Hs & _).
    eauto.
Qed.

(** C7, refuted as stated: with [num_layers = 2] the constructor accepts
    the eighteen layers of three scales. *)
Lemma Detect_init_accepts_longer_head_layers :
  length sample_layers = 18
  /\ exists self,
       Detect_init torch_zeros 2 2 true (Some sample_layers) true 1 = Ok self
       /\ length (stems self) = 2.
Proof.
  split; [reflexivity|].
  destruct (Detect_init_Ok torch_zeros 2 2 true sample_layers true 1)
    as (self & H & _ & _ & _ & _ & _ & _ & _ & _ & Hst & _); [simpl; lia|].
  exists self. rewrite Hst. done.
Qed.

(** C7, as amended: the constructor raises when [head_layers] is [None]
    (the assertion) or holds fewer than [6 * num_layers] modules (an index
    out of range); with [6 * num_layers] modules or more it returns a head
    whose scale [i] has [head_layers[6 * i .. 6 * i + 5]] as its stem,
    classification feature, regression feature, classification projection,
    distribution-form regression projection and direct regression
    projection, in that order; modules past [6 * num_layers] are ignored. *)
Theorem Detect_init_head_layers init ncl n ip hl dfl rm :
  Detect_init init ncl n ip None dfl rm = Raise AssertionError
  /\ (length hl < 6 * n ->
      Detect_init init ncl n ip (Some hl) dfl rm = Raise IndexError)
  /\ (6 * n <= length hl ->
      exists self,
        Detect_init init ncl n ip (Some hl) dfl rm = Ok self
        /\ length (stems self) = n /\ length (cls_convs self) = n
        /\ length (reg_convs self) = n /\ length (cls_preds self) = n
        /\ length (reg_preds_dist self) = n /\ length (reg_preds self) = n
        /\ forall i, i < n ->
             stems self !! i = hl !! (6 * i + 0)
             /\ cls_convs self !! i = hl !! (6 * i + 1)
             /\ reg_convs self !! i = hl !! (6 * i + 2)
             /\ cls_preds self !! i = hl !! (6 * i + 3)
             /\ reg_preds_dist self !! i = hl !! (6 * i + 4)
             /\ reg_preds self !! i = hl !! (6 * i + 5)).
Proof.
  split; [done|]. split; [apply Detect_init_short|].
  intros Hlen.
  destruct (Detect_init_Ok init ncl n ip hl dfl rm Hlen)
    as (self & H & _ & _ & _ & _ & _ & _ & _ & _ & E0 & E1 & E2 & E3 & E4 & E5).
  exists self. split; [done|]. rewrite E0, E1, E2, E3, E4, E5.
  destruct (layers_at_seq hl 0 n) as [L0 G0]; [lia|done|].
  destruct (layers_at_seq hl 1 n) as [L1 G1]; [lia|done|].
  destruct (layers_at_seq hl 2 n) as [L2 G2]; [lia|done|].
  destruct (layers_at_seq hl 3 n) as [L3 G3]; [lia|done|].
  destruct (layers_at_seq hl 4 n) as [L4 G4]; [lia|done|].
  destruct (layers_at_seq hl 5 n) as [L5 G5]; [lia|done|].
  repeat split; auto.
Qed.

(** The constructor on the twelve layers of two scales, and on too few. *)
Lemma Detect_init_head_layers_witness :
  Detect_init torch_zeros 2 3 true (Some two_scale_layers) true 1 = Raise IndexError
  /\ exists self,
       Detect_init torch_zeros 2 2 true (Some two_scale_layers) true 1 = Ok self
       /\ reg_preds_dist self !! 1 = two_scale_layers !! 10.
Proof.
  split.
  - apply (Detect_init_head_layers torch_zeros 2 3 true two_scale_layers true 1).
    simpl. lia.
  - destruct (Detect_init_head_layers torch_zeros 2 2 true two_scale_layers true 1)
      as (_ & _ & Hok).
    destruct Hok as (self & H & _ & _ & _ & _ & _ & _ & Hget); [simpl; lia|].
    exists self. split; [exact H|]. apply (Hget 1). lia.
Defined.

(** ** [initialize_biases] *)


Lemma init_pred_Ok v m m' :
  init_pred v m = Ok m' -> initialised v m m'.
Proof.
  unfold init_pred. destruct m as [| conv]; [discriminate|].
  destruct (bias conv) as [b|] eqn:Hb; [|discriminate].
  intros [= <-]. exists conv, b. eexists _, _.
  repeat split; try done.
Qed.

Lemma init_pred_total v conv b :
  bias conv = Some b -> exists m', init_pred v (Conv2d conv) = Ok m'.
Proof. intros Hb. unfold init_pred. rewrite Hb. eauto. Qed.

(** A projection list can be initialised when each member is a [Conv2d]
    with a bias. *)
Lemma init_preds_total v (ms : list module) :
  Forall (fun m => exists conv b, m = Conv2d conv /\ bias conv = Some b) ms ->
  exists ms', mapM_result (init_pred v) ms = Ok ms'.
Proof.
  induction 1 as [|m ms (conv & b & -> & Hb) _ (ms' & IH)]; cbn [mapM_result]; [eauto|].
  destruct (init_pred_total v conv b Hb) as (m' & ->). rewrite IH. simpl. eauto.
Qed.

Lemma initialize_biases_total self :
  Forall (fun m => exists conv b, m = Conv2d conv /\ bias conv = Some b)
         (cls_preds self ++ reg_preds_dist self ++ reg_preds self) ->
  exists self', initialize_biases self = Ok self'.
Proof.
  intros H. apply Forall_app in H as [Hc H]. apply Forall_app in H as [Hd Hr].
  unfold initialize_biases.
  destruct (init_preds_total (- ln ((1 - prior_prob self) / prior_prob self)) _ Hc) as (cp & ->).
  destruct (init_preds_total 1 _ Hd) as (rd & ->).
  destruct (init_preds_total 1 _ Hr) as (rp & ->).
  simpl. unfold reshape. simpl.
  rewrite Nat.mul_1_r, Nat.add_0_r, Nat.eqb_refl. eauto.
Qed.



(** ** Lists laid out in blocks *)

Lemma length_flat_map_const {A B} (f : A -> list B) (l : list A) (k : nat) :
  (forall a, a ∈ l -> length (f a) = k) -> length (flat_map f l) = length l * k.
Proof.
  induction l as [|a l IH]; intros Hf; simpl; [done|].
  rewrite length_app, Hf, IH; [lia | | left].
  intros a' Ha'. apply Hf. by right.
Qed.

(** In a list of [b] blocks of length [k], block [n] starts at [n * k]. *)
Lemma flat_map_block {A} (g : nat -> list A) (k b n : nat) :
  (forall o, o < b -> length (g o) = k) -> n < b ->
  take k (drop (n * k) (flat_map g (seq 0 b))) = g n.
Proof.
  intros Hg Hn.
  replace b with (n + S (b - S n)) by lia.
  rewrite seq_app, flat_map_app. simpl.
  rewrite drop_app_length'.
  - rewrite take_app_length'; [done | symmetry; apply Hg; lia].
  - rewrite (length_flat_map_const _ _ k), length_seq; [done|].
    intros o Ho. apply elem_of_seq in Ho. apply Hg. lia.
Qed.


Lemma numel_app (s1 s2 : list nat) : numel (s1 ++ s2) = numel s1 * numel s2.
Proof.
  induction s1 as [|d s1 IH]; simpl; [lia|]. rewrite IH. lia.
Qed.

(** ** Tensor operations *)

Lemma length_channels_last b c l d : length (channels_last b c l d) = b * (l * c).
Proof.
  unfold channels_last.
  rewrite (length_flat_map_const _ _ (l * c)), length_seq; [done|].
  intros n _. rewrite (length_flat_map_const _ _ c), length_seq; [done|].
  intros j _. by rewrite length_map, length_seq.
Qed.


Lemma flatten_permute_4d t b c h w :
  shape t = [b; c; h; w] ->
  flatten_permute t
  = Ok {| shape := [b; h * w; c]; data := channels_last b c (h * w) (data t) |}.
Proof.
  intros Hs. unfold flatten_permute, flatten2. rewrite Hs. simpl.
  unfold permute021. simpl. by rewrite Nat.mul_1_r.
Qed.

Lemma flatten_permute_wf t b c h w :
  shape t = [b; c; h; w] ->
  exists t', flatten_permute t = Ok t'
             /\ shape t' = [b; h * w; c] /\ wf_tensor t'.
Proof.
  intros Hs. rewrite (flatten_permute_4d t b c h w Hs).
  eexists. split; [done|]. split; [done|].
  unfold wf_tensor. simpl. rewrite length_channels_last. lia.
Qed.





Lemma in_unit_1 : in_unit 1.
Proof. unfold in_unit. lra. Qed.



Lemma length_chunk_1 t b l c o :
  shape t = [b; l; c] -> wf_tensor t -> o < b -> length (chunk 1 t o) = l * c.
Proof.
  intros Hs Hwf Ho. unfold chunk, wf_tensor in *. rewrite Hs in *. simpl in *.
  rewrite length_take, length_drop, Hwf. nia.
Qed.

Lemma length_row_of_chunks ts b c o :
  Forall (fun t => exists l, shape t = [b; l; c] /\ wf_tensor t) ts -> o < b ->
  length (flat_map (fun t => chunk 1 t o) ts)
  = sum_list (map (fun t => nth 1 (shape t) 0) ts) * c.
Proof.
  intros Hts Ho. induction Hts as [|t ts (l & Hs & Hwf) _ IH]; simpl; [done|].
  rewrite length_app, IH, (length_chunk_1 t b l c o Hs Hwf Ho), Hs. simpl. lia.
Qed.

(** Concatenating [(b, l_i, c)] tensors along axis 1 gives a
    [(b, sum of l_i, c)] tensor whose batch-[n] block is the batch-[n]
    blocks of the arguments, one after the other. *)
Lemma torch_cat_axis1 ts b c :
  ts <> [] ->
  Forall (fun t => exists l, shape t = [b; l; c] /\ wf_tensor t) ts ->
  exists t,
    torch_cat ts 1 = Ok t
    /\ shape t = [b; sum_list (map (fun t => nth 1 (shape t) 0) ts); c]
    /\ wf_tensor t
    /\ forall n, n < b -> chunk 1 t n = flat_map (fun t' => chunk 1 t' n) ts.
Proof.
  intros Hne Hts. unfold torch_cat.
  destruct ts as [|t0 ts']; [done|]. clear Hne.
  remember (t0 :: ts') as ts eqn:E.
  assert (exists l0, shape t0 = [b; l0; c]) as (l0 & Hs0).
  { subst ts. inversion Hts as [|? ? (l0 & Hs0 & _) _]. eauto. }
  assert (forallb (fun t => cat_compatible 1 (shape t0) (shape t)) ts = true) as ->.
  { apply forallb_forall. intros t Ht. rewrite Forall_forall in Hts.
    destruct (Hts t) as (l & Hs & _); [by apply list_elem_of_In|].
    unfold cat_compatible. rewrite Hs, Hs0. simpl.
    rewrite !bool_decide_eq_true_2; done. }
  rewrite Hs0. simpl. eexists. split; [done|]. cbn [shape data].
  set (total := sum_list (map (fun t => nth 1 (shape t) 0) ts)).
  assert (forall o, o < b * 1 ->
            length (flat_map (fun t => chunk 1 t o) ts) = total * (c * 1)) as Hrow.
  { intros o Ho. rewrite (length_row_of_chunks ts b c o Hts); [lia | lia]. }
  split; [done|]. split.
  - unfold wf_tensor. cbn [shape data].
    rewrite (length_flat_map_const _ _ (total * (c * 1))), length_seq; [simpl; lia|].
    intros o Ho. apply elem_of_seq in Ho. apply Hrow. lia.
  - intros n Hn. unfold chunk at 1. cbn [shape data]. simpl numel.
    apply (flat_map_block (fun o => flat_map (fun t => chunk 1 t o) ts)
             (total * (c * 1)) (b * 1) n); [exact Hrow | lia].
Qed.

(** ** The training loop *)

Section Training.

Variable run : module -> tensor -> result tensor.

Lemma call_Ok ms i t t' :
  call run ms i t = Ok t' <-> exists m, ms !! i = Some m /\ run m t = Ok t'.
Proof.
  unfold call. split.
  - intros H. inv_bind. apply getitem_Ok in Ha. eauto.
  - intros (m & Hm & Hr). apply getitem_Ok in Hm. by rewrite Hm.
Qed.

Lemma training_scale_inv self x i x' c d l :
  training_scale run self x i = (x', Ok (c, d, l)) ->
  exists xi fr,
    x !! i = Some xi /\ x' = <[i := t_feat fr]> x
    /\ training_round run self i xi fr
    /\ t_cls fr = c /\ t_dist fr = d /\ t_lrtb fr = l.
Proof.
  unfold training_scale.
  destruct (_ ≫= _) as [feat|e] eqn:E; [|intros [= _ ?]; discriminate].
  intros [= <- H].
  apply bind_Ok in E as (m & Hm & E). apply bind_Ok in E as (xi & Hxi & E).
  apply getitem_Ok in Hxi.
  apply bind_Ok in H as (cls_feat & H1 & H). apply bind_Ok in H as (cls_raw & H2 & H).
  apply bind_Ok in H as (reg_feat & H3 & H). apply bind_Ok in H as (reg_raw & H4 & H).
  apply bind_Ok in H as (lrtb_raw & H5 & H). apply bind_Ok in H as (c' & H6 & H).
  apply bind_Ok in H as (d' & H7 & H). apply bind_Ok in H as (l' & H8 & H).
  injection H as <- <- <-.
  exists xi, (mkTrainFrame feat cls_feat cls_raw reg_feat reg_raw lrtb_raw c' d' l').
  repeat split; try done. simpl. unfold call. by rewrite Hm.
Qed.

Lemma training_scale_intro self x i xi fr :
  x !! i = Some xi -> training_round run self i xi fr ->
  training_scale run self x i
  = (<[i := t_feat fr]> x, Ok (t_cls fr, t_dist fr, t_lrtb fr)).
Proof.
  intros Hxi (H0 & H1 & H2 & H3 & H4 & H5 & H6 & H7 & H8).
  unfold training_scale. apply call_Ok in H0 as (m & Hm & Hr).
  apply getitem_Ok in Hm, Hxi. rewrite Hm. simpl. rewrite Hxi. simpl. rewrite Hr.
  rewrite H1. simpl. rewrite H2. simpl. rewrite H3. simpl. rewrite H4. simpl.
  rewrite H5. simpl. rewrite H6. simpl. rewrite H7. simpl. rewrite H8. done.
Qed.

Lemma training_round_det self i xi fr fr' :
  training_round run self i xi fr -> training_round run self i xi fr' -> fr = fr'.
Proof.
  destruct fr, fr'. unfold training_round. simpl.
  intros (H0 & H1 & H2 & H3 & H4 & H5 & H6 & H7 & H8)
         (G0 & G1 & G2 & G3 & G4 & G5 & G6 & G7 & G8).
  rewrite H0 in G0. injection G0 as <-.
  rewrite H1 in G1. injection G1 as <-.
  rewrite H2 in G2. injection G2 as <-.
  rewrite H3 in G3. injection G3 as <-.
  rewrite H4 in G4. injection G4 as <-.
  rewrite H5 in G5. injection G5 as <-.
  rewrite H6 in G6. injection G6 as <-.
  rewrite H7 in G7. injection G7 as <-.
  rewrite H8 in G8. injection G8 as <-.
  done.
Qed.

(** What a run of the loop over the scales [k .. k + m - 1] that ends
    without an exception has done: one frame per scale, computed from the
    list as it was on entry, and the stem outputs stored in their slots. *)
Lemma training_loop_inv self m : forall k x acc xf out,
  training_loop run self (seq k m) x acc = (xf, Ok out) ->
  exists frs,
    length frs = m
    /\ out = (acc.1.1 ++ map t_cls frs, acc.1.2 ++ map t_dist frs, acc.2 ++ map t_lrtb frs)
    /\ length xf = length x
    /\ (forall j fr, frs !! j = Some fr ->
          exists xi, x !! (k + j) = Some xi
                     /\ training_round run self (k + j) xi fr
                     /\ xf !! (k + j) = Some (t_feat fr))
    /\ (forall i, i < k \/ k + m <= i -> xf !! i = x !! i).
Proof.
  induction m as [|m IH]; intros k x acc xf out H.
  - simpl in H. injection H as <- <-. exists []. destruct acc as [[? ?] ?]. simpl.
    rewrite !app_nil_r. repeat split; done.
  - simpl in H. destruct (training_scale run self x k) as [x1 r] eqn:E.
    destruct r as [[[c d] l]|e]; [|discriminate].
    apply training_scale_inv in E as (xi & fr & Hxi & -> & Hround & <- & <- & <-).
    apply IH in H as (frs & Hlen & -> & Hlenx & Hfr & Hother).
    assert (k < length x) as Hk by (by eapply lookup_lt_Some).
    exists (fr :: frs). simpl. rewrite <- !app_assoc. simpl.
    rewrite length_insert in Hlenx.
    split; [lia|]. split; [done|]. split; [done|]. split.
    + intros [|j] fr' Hj; simpl in Hj.
      * injection Hj as <-. rewrite Nat.add_0_r. exists xi.
        split; [done|]. split; [done|].
        rewrite Hother by lia. by apply list_lookup_insert_eq.
      * destruct (Hfr j fr' Hj) as (xi' & Hxi' & Hr' & Hxf).
        replace (k + S j) with (S k + j) by lia.
        exists xi'. split; [|done].
        rewrite list_lookup_insert_ne in Hxi' by lia. done.
    + intros i Hi. rewrite Hother by lia. apply list_lookup_insert_ne. lia.
Qed.

Lemma training_loop_total self m : forall k x acc,
  (forall j, j < m ->
     exists xi fr, x !! (k + j) = Some xi /\ training_round run self (k + j) xi fr) ->
  exists xf out, training_loop run self (seq k m) x acc = (xf, Ok out).
Proof.
  induction m as [|m IH]; intros k x acc Hall; simpl; [eauto|].
  destruct (Hall 0) as (xi & fr & Hxi & Hround); [lia|].
  rewrite Nat.add_0_r in Hxi, Hround.
  rewrite (training_scale_intro self x k xi fr Hxi Hround).
  apply IH. intros j Hj.
  destruct (Hall (S j)) as (xi' & fr' & Hxi' & Hround'); [lia|].
  replace (k + S j) with (S k + j) in * by lia.
  exists xi', fr'. split; [|done]. rewrite list_lookup_insert_ne by lia. done.
Qed.


End Training.

Lemma flat_map_map {A B C} (f : B -> list C) (g : A -> B) (l : list A) :
  flat_map f (map g l) = flat_map (fun a => f (g a)) l.
Proof. induction l as [|a l IH]; simpl; [done | by rewrite IH]. Qed.

Lemma sum_rows {A} (f : A -> tensor) (frs : list A) (x : list tensor) :
  Forall2 (fun fr xi => nth 1 (shape (f fr)) 0 = spatial_size xi) frs x ->
  sum_list (map (fun t => nth 1 (shape t) 0) (map f frs)) = total_anchors x.
Proof.
  unfold total_anchors. induction 1 as [|fr xi frs x H _ IH]; simpl; [done|].
  by rewrite H, IH.
Qed.


(** The pointwise convolutions keep to the sub-module interface. *)
Lemma pointwise_conv_respects cin cout wgt bs act t b h w :
  shape t = [b; cin; h; w] ->
  exists t', pointwise_conv cin cout wgt bs act t = Ok t'
             /\ shape t' = [b; cout; h; w] /\ wf_tensor t'.
Proof.
  intros Hs. unfold pointwise_conv. rewrite Hs, Nat.eqb_refl.
  eexists. split; [done|]. split; [done|].
  unfold wf_tensor. cbn [shape data].
  rewrite (length_flat_map_const _ _ (cout * (h * w))), length_seq; [simpl; lia|].
  intros n _. rewrite (length_flat_map_const _ _ (h * w)), length_seq; [done|].
  intros k _. by rewrite length_map, length_seq.
Qed.

Lemma sample_run_respects m : respects sample_run m.
Proof.
  intros t b h w Hs _. destruct m as [cin cout ks cs | conv]; simpl in *;
    by apply pointwise_conv_respects.
Qed.



(** ** The feature-map list as a shared object *)

(** C10: in training mode a call of [forward] that returns has overwritten
    slot [i] of the caller's list, for every scale [i < nl], with the stem
    output of that slot (the other slots, and every other object, are as
    before), and the first component of the result is a reference to that
    same list; in inference mode the heap, and so every slot of the list,
    is left as it was. *)
Theorem forward_aliases_input run self x h h' r :
  forward run self x h = (h', r) ->
  (training self = false -> h' = h)
  /\ (training self = true -> forall out, r = Ok out ->
      exists cls dist lrtb xs xs',
        out = TrainingOutput x cls dist lrtb
        /\ h !! x = Some xs /\ h' !! x = Some xs'
        /\ (forall y, y <> x -> h' !! y = h !! y)
        /\ length xs' = length xs
        /\ (forall i, i < nl self ->
              exists xi st xi', xs !! i = Some xi /\ stems self !! i = Some st
                /\ run st xi = Ok xi' /\ xs' !! i = Some xi')
        /\ (forall i, nl self <= i -> xs' !! i = xs !! i)).
Proof.
  unfold forward. destruct (h !! x) as [xs|] eqn:Hx.
  - destruct (training self).
    + intros [= <- <-]. split; [discriminate|]. intros _ out Hout.
      apply bind_Ok in Hout as ([[cls dist] lrtb] & Hfw & Hout).
      injection Hout as <-. simpl.
      unfold forward_training in *. simpl in *.
      destruct (training_loop run self (seq 0 (nl self)) xs ([], [], []))
        as [xf res] eqn:Hloop. simpl in *.
      apply bind_Ok in Hfw as (lists & -> & _).
      destruct (training_loop_inv run self _ _ _ _ _ _ Hloop)
        as (frs & Hfrs & _ & Hlen & Hfr & Hother).
      exists cls, dist, lrtb, xs, xf.
      split; [done|]. split; [done|]. split; [apply lookup_insert_eq|].
      split; [intros y Hy; by apply lookup_insert_ne|].
      split; [done|]. split.
      * intros i Hi. destruct (lookup_lt_is_Some_2 frs i) as [fr Hi']; [lia|].
        destruct (Hfr i fr Hi') as (xi & Hxi & Hround & Hxf). simpl in *.
        destruct Hround as (Hstem & _). apply call_Ok in Hstem as (st & Hst & Hrun).
        exists xi, st, (t_feat fr). done.
      * intros i Hi. apply Hother. simpl. lia.
    + intros [= <- <-]. split; [done | discriminate].
  - intros [= <- <-]. split; [done|]. intros _ out Hout. discriminate.
Qed.

(** The sample head on the list at reference 7: in training mode the
    result refers to the list and slot 0 holds the stem output; in
    inference mode the heap is untouched. *)
Lemma forward_aliases_input_witness :
  (forward sample_run (set_training sample_head false) 7 sample_heap).1 = sample_heap
  /\ exists cls dist lrtb xs',
       sample_training_output = TrainingOutput 7 cls dist lrtb
       /\ (forward sample_run sample_head 7 sample_heap).1 !! 7 = Some xs'
       /\ length xs' = 3.
Proof.
  split.
  - apply (forward_aliases_input sample_run (set_training sample_head false) 7
             sample_heap _ _ (surjective_pairing _)). reflexivity.
  - destruct (forward_aliases_input sample_run sample_head 7 sample_heap _ _
                (surjective_pairing _)) as [_ Htrain].
    destruct (Htrain eq_refl sample_training_output)
      as (cls & dist & lrtb & xs & xs' & Hout & Hxs & Hxs' & _ & Hlen & _).
    + vm_compute. reflexivity.
    + exists cls, dist, lrtb, xs'. split; [exact Hout|]. split; [exact Hxs'|].
      rewrite Hlen. change (sample_heap !! 7) with (Some sample_x1) in Hxs.
      injection Hxs as <-. reflexivity.
Defined.

(** ** The inference loop *)

Arguments torch_cat_last : simpl never.
Arguments torch_cat : simpl never.
Arguments dist2bbox : simpl never.
Arguments reshape : simpl never.
Arguments reshape_rows4 : simpl never.
Arguments permute0231 : simpl never.
Arguments py_slice : simpl never.

Section Inference.

Variable run : module -> tensor -> result tensor.

Lemma shape_bhw_Ok t b h w :
  shape_bhw t = Ok (b, h, w) <-> exists c, shape t = [b; c; h; w].
Proof.
  unfold shape_bhw. split.
  - destruct (shape t) as [|b' [|c [|h' [|w' [|]]]]]; try discriminate.
    intros [= -> -> ->]. eauto.
  - intros (c & ->). done.
Qed.

Lemma inference_scale_Ok self x ap st start i fr :
  inference_scale run self x ap st start i = Ok fr
  <-> inference_round run self x ap st start i fr.
Proof.
  unfold inference_scale, inference_round. split.
  - intros H.
    apply bind_Ok in H as (xi & Hxi & H). apply getitem_Ok in Hxi.
    apply bind_Ok in H as ([[b h] w] & Hbhw & H). apply shape_bhw_Ok in Hbhw as (c & Hs).
    apply bind_Ok in H as (feat & H1 & H). apply bind_Ok in H as (cls_feat & H2 & H).
    apply bind_Ok in H as (reg_feat & H3 & H). apply bind_Ok in H as (cls_raw & H4 & H).
    apply bind_Ok in H as (reg_raw & H5 & H). apply bind_Ok in H as (cls_out & H6 & H).
    apply bind_Ok in H as (reg_out & H7 & H). apply bind_Ok in H as (rows & H8 & H).
    apply bind_Ok in H as (decoded & H9 & H). apply bind_Ok in H as (boxes & H10 & H).
    apply bind_Ok in H as (s0 & H11 & H). apply getitem_Ok in H11.
    apply bind_Ok in H as (out & H12 & H). injection H as <-. simpl.
    exists xi, b, c, h, w, feat, cls_feat, reg_feat, cls_raw, reg_raw, rows, boxes, s0.
    repeat split; done.
  - intros (xi & b & c & h & w & feat & cls_feat & reg_feat & cls_raw & reg_raw & rows
            & boxes & s0 & Hxi & Hs & H1 & H2 & H3 & H4 & H5 & H6 & H7 & Hst & Hend
            & Hap & Hss & H8 & H9 & H10 & H11 & H12 & H13).
    apply getitem_Ok in Hxi, H11. rewrite Hxi. simpl.
    assert (shape_bhw xi = Ok (b, h, w)) as -> by (apply shape_bhw_Ok; eauto). simpl.
    rewrite H1. simpl. rewrite H2. simpl. rewrite H3. simpl. rewrite H4. simpl.
    rewrite H5. simpl. rewrite H6. simpl. rewrite H7. simpl. rewrite H8. simpl.
    rewrite <- Hap, H9. simpl. rewrite H10. simpl. rewrite <- Hss, H11. simpl.
    rewrite <- H12, H13. simpl. destruct fr. simpl in *. by subst.
Qed.

Lemma inference_round_size self x ap st start i fr :
  inference_round run self x ap st start i fr ->
  exists xi, x !! i = Some xi
    /\ f_start_idx fr = start /\ f_end_idx fr = start + spatial_size xi
    /\ f_scale_anchor_points fr = py_slice ap start (start + spatial_size xi)
    /\ f_scale_stride fr = py_slice st start (start + spatial_size xi).
Proof.
  intros (xi & b & c & h & w & feat & cls_feat & reg_feat & cls_raw & reg_raw & rows
          & boxes & s0 & Hxi & Hs & _ & _ & _ & _ & _ & _ & _ & Hst & Hend
          & Hap & Hss & _).
  exists xi. unfold spatial_size. rewrite Hs. done.
Qed.

Lemma anchors_before_S x k j xi :
  x !! k = Some xi ->
  anchors_before x k (S j) = spatial_size xi + anchors_before x (S k) j.
Proof.
  intros Hxi. unfold anchors_before.
  rewrite (drop_S x xi k Hxi). done.
Qed.

(** What a run of the loop over the scales [k .. k + m - 1] that ends
    without an exception has done: one frame per scale, each entered with
    the start index the previous scales have advanced it to. *)
Lemma inference_loop_inv self x ap st m : forall k s frames0 s' frames,
  foldM (inference_step run self x ap st) (seq k m) (s, frames0) = Ok (s', frames) ->
  exists frs,
    frames = frames0 ++ frs /\ length frs = m
    /\ s' = s + anchors_before x k m
    /\ forall j fr, frs !! j = Some fr ->
         inference_round run self x ap st (s + anchors_before x k j) (k + j) fr.
Proof.
  induction m as [|m IH]; intros k s frames0 s' frames H.
  - simpl in H. injection H as <- <-. exists []. rewrite app_nil_r.
    unfold anchors_before. simpl. repeat split; [lia | done].
  - simpl in H. apply bind_Ok in H as ([s1 frames1] & Hstep & H).
    unfold inference_step in Hstep. simpl in Hstep.
    apply bind_Ok in Hstep as (fr & Hfr & Hstep). injection Hstep as <- <-.
    apply inference_scale_Ok in Hfr.
    destruct (inference_round_size _ _ _ _ _ _ _ Hfr) as (xi & Hxi & _ & Hend & _).
    apply IH in H as (frs & -> & Hlen & -> & Hrounds).
    exists (fr :: frs). rewrite <- app_assoc. simpl.
    split; [done|]. split; [lia|]. split.
    + rewrite (anchors_before_S x k m xi Hxi), Hend. lia.
    + intros [|j] fr' Hj; simpl in Hj.
      * injection Hj as <-. unfold anchors_before. simpl.
        by rewrite !Nat.add_0_r.
      * specialize (Hrounds j fr' Hj).
        rewrite (anchors_before_S x k j xi Hxi).
        replace (k + S j) with (S k + j) by lia.
        rewrite Hend in Hrounds.
        by rewrite Nat.add_assoc.
Qed.

Lemma inference_step_Ok self x ap st s frames0 i fr :
  inference_scale run self x ap st s i = Ok fr ->
  inference_step run self x ap st (s, frames0) i = Ok (f_end_idx fr, frames0 ++ [fr]).
Proof. intros H. unfold inference_step. simpl. by rewrite H. Qed.

Lemma inference_loop_intro self x ap st m : forall k s frames0 frs,
  length frs = m ->
  (forall j fr, frs !! j = Some fr ->
     inference_round run self x ap st (s + anchors_before x k j) (k + j) fr) ->
  foldM (inference_step run self x ap st) (seq k m) (s, frames0)
  = Ok (s + anchors_before x k m, frames0 ++ frs).
Proof.
  induction m as [|m IH]; intros k s frames0 frs Hlen Hrounds.
  - destruct frs; [|done]. simpl. rewrite app_nil_r.
    unfold anchors_before. simpl. by rewrite Nat.add_0_r.
  - destruct frs as [|fr frs]; [done|]. simpl in Hlen.
    pose proof (Hrounds 0 fr eq_refl) as Hfr.
    unfold anchors_before in Hfr. simpl in Hfr. rewrite !Nat.add_0_r in Hfr.
    destruct (inference_round_size _ _ _ _ _ _ _ Hfr) as (xi & Hxi & _ & Hend & _).
    apply inference_scale_Ok in Hfr. cbn [seq foldM].
    rewrite (inference_step_Ok _ _ _ _ _ frames0 _ _ Hfr). cbn [mbind result_bind].
    rewrite (IH (S k) (f_end_idx fr) (frames0 ++ [fr]) frs); [|lia|].
    + rewrite (anchors_before_S x k m xi Hxi), Hend, <- app_assoc. simpl.
      by rewrite Nat.add_assoc.
    + intros j fr' Hj. specialize (Hrounds (S j) fr' Hj).
      rewrite (anchors_before_S x k j xi Hxi) in Hrounds.
      replace (k + S j) with (S k + j) in Hrounds by lia.
      rewrite Hend. by rewrite <- Nat.add_assoc.
Qed.

End Inference.

(** ** The anchor set and its slices *)

Lemma spatial_size_hw t : spatial_size t = (hw_of t).1 * (hw_of t).2.
Proof.
  unfold spatial_size, hw_of.
  destruct (shape t) as [|b [|c [|h [|w [|]]]]]; done.
Qed.

Lemma mapM_shape_hw x hws :
  mapM_result shape_hw x = Ok hws -> hws = map hw_of x.
Proof.
  revert hws. induction x as [|t x IH]; intros hws H; simpl in H.
  - by injection H as <-.
  - apply bind_Ok in H as (hw & Hhw & H). apply bind_Ok in H as (rest & Hrest & H).
    injection H as <-. simpl. rewrite (IH rest Hrest). f_equal.
    unfold shape_hw in Hhw. unfold hw_of.
    destruct (shape t) as [|b [|c [|h [|w [|]]]]]; try discriminate.
    by injection Hhw as <-.
Qed.

Lemma flat_map_zip_map {A B C D} (g : A -> C -> list D) (f : B -> C)
    (s : list A) (x : list B) :
  flat_map (fun p => g p.1 p.2) (zip s (map f x))
  = flat_map (fun p => g p.1 (f p.2)) (zip s x).
Proof.
  revert x. induction s as [|a s IH]; intros [|b x]; simpl; try done.
  by rewrite IH.
Qed.

Lemma length_scale_anchor_grid off h w : length (scale_anchor_grid off h w) = h * w.
Proof.
  unfold scale_anchor_grid.
  rewrite (length_flat_map_const _ _ w), length_seq; [done|].
  intros r _. by rewrite length_map, length_seq.
Qed.

(** What [generate_anchors] returns when it returns. *)
Lemma generate_anchors_Ok x strides cs off ap st :
  generate_anchors x strides cs off = Ok (ap, st) ->
  length strides = length x
  /\ Forall (fun t => 0 < spatial_size t) x
  /\ ap = flat_map (fun t => scale_anchor_grid off (hw_of t).1 (hw_of t).2) x
  /\ st = flat_map (fun p => replicate (spatial_size p.2) (IZR p.1)) (zip strides x).
Proof.
  unfold generate_anchors.
  destruct (length strides =? length x) eqn:Hlen; [|discriminate]. simpl.
  apply Nat.eqb_eq in Hlen. intros H.
  apply bind_Ok in H as (hws & Hhws & H). apply mapM_shape_hw in Hhws as ->.
  destruct (existsb _ _) eqn:Hex; [discriminate|]. injection H as <- <-.
  split; [done|]. split; [|split].
  - apply Forall_forall. intros t Ht.
    destruct (decide (0 < spatial_size t)) as [|Hz]; [done|]. exfalso.
    assert (existsb (fun hw => hw.1 * hw.2 =? 0) (map hw_of x) = true) as Hex'.
    { apply existsb_exists. exists (hw_of t). split.
      - apply in_map. by apply list_elem_of_In.
      - apply Nat.eqb_eq. rewrite <- spatial_size_hw. lia. }
    congruence.
  - by rewrite flat_map_map.
  - rewrite (flat_map_zip_map (fun s hw => replicate (hw.1 * hw.2) (IZR s)) hw_of).
    apply flat_map_ext. intros [s t]. simpl. by rewrite spatial_size_hw.
Qed.

Lemma length_flat_map_sum {A B} (g : A -> list B) (sz : A -> nat) (l : list A) :
  (forall a, length (g a) = sz a) ->
  length (flat_map g l) = sum_list (map sz l).
Proof.
  intros Hg. induction l as [|a l IH]; simpl; [done|].
  by rewrite length_app, Hg, IH.
Qed.

(** In a concatenation of blocks, the slice that starts after the first
    [i] blocks and has the length of block [i] is block [i]. *)
Lemma py_slice_flat_map {A B} (g : A -> list B) (sz : A -> nat) (l : list A) i a :
  (forall a, length (g a) = sz a) -> l !! i = Some a ->
  py_slice (flat_map g l) (sum_list (map sz (take i l)))
           (sum_list (map sz (take i l)) + sz a) = g a.
Proof.
  intros Hg Hi.
  assert (flat_map g l = flat_map g (take i l) ++ g a ++ flat_map g (drop (S i) l)) as ->.
  { rewrite <- (take_drop_middle l i a Hi) at 1. by rewrite flat_map_app. }
  unfold py_slice. rewrite Nat.add_sub'.
  rewrite drop_app_length' by (by rewrite (length_flat_map_sum g sz)).
  apply take_app_length'. by rewrite Hg.
Qed.

Lemma map_snd_take_zip {A B C} (f : B -> C) (s : list A) (x : list B) i :
  length s = length x ->
  map (fun p => f p.2) (take i (zip s x)) = map f (take i x).
Proof.
  revert x i. induction s as [|a s IH]; intros [|b x] [|i] Hlen; simpl in *; try done.
  rewrite IH by lia. done.
Qed.

(** The slices the loop takes for scale [i] are the anchor grid of scale
    [i] and [h_i * w_i] copies of the stride of scale [i]. *)
Lemma generate_anchors_slices x strides cs off ap st i xi :
  generate_anchors x strides cs off = Ok (ap, st) ->
  x !! i = Some xi ->
  exists si,
    strides !! i = Some si
    /\ 0 < spatial_size xi
    /\ py_slice ap (anchors_before x 0 i) (anchors_before x 0 i + spatial_size xi)
       = scale_anchor_grid off (hw_of xi).1 (hw_of xi).2
    /\ py_slice st (anchors_before x 0 i) (anchors_before x 0 i + spatial_size xi)
       = replicate (spatial_size xi) (IZR si).
Proof.
  intros Hgen Hxi.
  apply generate_anchors_Ok in Hgen as (Hlen & Hpos & -> & ->).
  destruct (lookup_lt_is_Some_2 strides i) as [si Hsi].
  { rewrite Hlen. by eapply lookup_lt_Some. }
  exists si. split; [done|]. split.
  { rewrite Forall_forall in Hpos. apply Hpos. by eapply list_elem_of_lookup_2. }
  unfold anchors_before. rewrite drop_0. split.
  - apply (py_slice_flat_map
             (fun t => scale_anchor_grid off (hw_of t).1 (hw_of t).2) spatial_size);
      [|done].
    intros t. by rewrite length_scale_anchor_grid, spatial_size_hw.
  - rewrite <- (map_snd_take_zip spatial_size strides x i Hlen).
    apply (py_slice_flat_map
             (fun p : Z * tensor => replicate (spatial_size p.2) (IZR p.1))
             (fun p => spatial_size p.2) (zip strides x) i (si, xi)).
    + intros p. by rewrite length_replicate.
    + apply lookup_zip_with_Some. exists si, xi. done.
Qed.

Section InferenceFrames.

Variable run : module -> tensor -> result tensor.

(** A call of the inference branch that returns has generated the anchor
    set and run one round per scale, each entered where the previous
    scales left the start index. *)
Lemma inference_frames_inv self x frames :
  inference_frames run self x = Ok frames ->
  exists ap st,
    generate_anchors x (stride self) (grid_cell_size self) (grid_cell_offset self)
    = Ok (ap, st)
    /\ length frames = nl self
    /\ (forall i fr, frames !! i = Some fr ->
         inference_round run self x ap st (anchors_before x 0 i) i fr)
    /\ exists x0, x !! 0 = Some x0.
Proof.
  unfold inference_frames. intros H.
  apply bind_Ok in H as (x0 & Hx0 & H). apply bind_Ok in H as ([ap st] & Hgen & H).
  apply bind_Ok in H as ([s' frs] & Hloop & H). injection H as <-. simpl in *.
  apply inference_loop_inv in Hloop as (frs' & -> & Hlen & _ & Hrounds).
  apply getitem_Ok in Hx0. exists ap, st. eauto.
Qed.

Lemma inference_frames_intro self x ap st frames x0 :
  x !! 0 = Some x0 ->
  generate_anchors x (stride self) (grid_cell_size self) (grid_cell_offset self)
  = Ok (ap, st) ->
  length frames = nl self ->
  (forall i fr, frames !! i = Some fr ->
     inference_round run self x ap st (anchors_before x 0 i) i fr) ->
  inference_frames run self x = Ok frames.
Proof.
  intros Hx0 Hgen Hlen Hrounds. unfold inference_frames.
  apply getitem_Ok in Hx0. rewrite Hx0. simpl. rewrite Hgen. simpl.
  rewrite (inference_loop_intro run self x ap st (nl self) 0 0 [] frames Hlen Hrounds).
  done.
Qed.

End InferenceFrames.

(** ** The slices of the anchor set *)

Lemma map_eq_lookup {A B C} (f : A -> C) (g : B -> C) (l : list A) (k : list B) :
  length l = length k ->
  (forall i a b, l !! i = Some a -> k !! i = Some b -> f a = g b) ->
  map f l = map g k.
Proof.
  intros Hlen Hfg.
  assert (Forall2 (fun a b => f a = g b) l k) as H
    by (by apply Forall2_same_length_lookup_2).
  clear Hlen Hfg.
  induction H as [|a b l k Hab _ IH]; simpl; [done|]. by rewrite Hab, IH.
Qed.

Lemma sample_frames_Ok :
  inference_frames sample_run sample_eval_head sample_x1 = Ok sample_frames.
Proof. vm_compute. reflexivity. Qed.

(** C1: a call of the inference branch on [nl] feature maps that returns
    has generated an anchor set of [sum (h_i * w_i)] points and strides
    and has taken, for scale [i], the slice from the running start index
    (0 at first, advanced by [h_j * w_j] by every earlier scale [j]) to
    that index plus [h_i * w_i]; each slice has exactly [h_i * w_i]
    entries, and the slices of all scales, in scale order, make up the
    whole anchor set, so they are disjoint and cover it. *)
Theorem inference_slices run self x frames :
  inference_frames run self x = Ok frames ->
  length x = nl self ->
  exists ap st,
    generate_anchors x (stride self) (grid_cell_size self) (grid_cell_offset self)
    = Ok (ap, st)
    /\ length frames = nl self
    /\ length ap = total_anchors x /\ length st = total_anchors x
    /\ (forall i fr, frames !! i = Some fr ->
          exists xi, x !! i = Some xi
            /\ f_start_idx fr = sum_list (map spatial_size (take i x))
            /\ f_end_idx fr = f_start_idx fr + spatial_size xi
            /\ f_scale_anchor_points fr = py_slice ap (f_start_idx fr) (f_end_idx fr)
            /\ f_scale_stride fr = py_slice st (f_start_idx fr) (f_end_idx fr)
            /\ length (f_scale_anchor_points fr) = spatial_size xi
            /\ length (f_scale_stride fr) = spatial_size xi)
    /\ concat (map f_scale_anchor_points frames) = ap
    /\ concat (map f_scale_stride frames) = st.
Proof.
  intros Hrun Hnl.
  destruct (inference_frames_inv run self x frames Hrun)
    as (ap & st & Hgen & Hlen & Hrounds & _).
  exists ap, st. split; [done|]. split; [done|].
  assert (forall i fr, frames !! i = Some fr ->
            exists xi si, x !! i = Some xi /\ stride self !! i = Some si
              /\ f_start_idx fr = anchors_before x 0 i
              /\ f_end_idx fr = anchors_before x 0 i + spatial_size xi
              /\ f_scale_anchor_points fr
                 = scale_anchor_grid (grid_cell_offset self) (hw_of xi).1 (hw_of xi).2
              /\ f_scale_stride fr = replicate (spatial_size xi) (IZR si)
              /\ f_scale_anchor_points fr
                 = py_slice ap (anchors_before x 0 i) (anchors_before x 0 i + spatial_size xi)
              /\ f_scale_stride fr
                 = py_slice st (anchors_before x 0 i) (anchors_before x 0 i + spatial_size xi))
    as Hfr.
  { intros i fr Hi.
    destruct (inference_round_size run _ _ _ _ _ _ _ (Hrounds i fr Hi))
      as (xi & Hxi & Hs & He & Hap & Hst).
    destruct (generate_anchors_slices _ _ _ _ _ _ i xi Hgen Hxi) as (si & Hsi & _ & Ga & Gs).
    exists xi, si. rewrite Hap, Hst, Ga, Gs. done. }
  pose proof (generate_anchors_Ok _ _ _ _ _ _ Hgen) as (Hslen & _ & Eap & Est).
  split; [|split; [|split; [|split]]].
  - rewrite Eap. rewrite (length_flat_map_sum _ spatial_size); [done|].
    intros t. by rewrite length_scale_anchor_grid, spatial_size_hw.
  - rewrite Est. rewrite (length_flat_map_sum _ (fun p => spatial_size p.2)).
    + unfold total_anchors.
      pose proof (map_snd_take_zip spatial_size (stride self) x (length x) Hslen) as E.
      rewrite !take_ge in E by (rewrite ?length_zip_with; lia). by rewrite E.
    + intros p. by rewrite length_replicate.
  - intros i fr Hi.
    destruct (Hfr i fr Hi) as (xi & si & Hxi & _ & Hs & He & Ga & Gs & Hap & Hst).
    exists xi. change (anchors_before x 0 i) with (sum_list (map spatial_size (take i x))) in *.
    rewrite Hs, He. repeat split; try done.
    + rewrite Ga. by rewrite length_scale_anchor_grid, spatial_size_hw.
    + rewrite Gs. by rewrite length_replicate.
  - rewrite Eap, flat_map_concat_map. f_equal.
    apply map_eq_lookup; [lia|]. intros i fr xi Hi Hxi.
    destruct (Hfr i fr Hi) as (xi' & si & Hxi' & _ & _ & _ & Ga & _). congruence.
  - rewrite Est, flat_map_concat_map. f_equal.
    apply map_eq_lookup; [rewrite length_zip_with; lia|]. intros i fr [si xi] Hi Hp.
    apply lookup_zip_with_Some in Hp as (si' & xi' & [= <- <-] & Hsi & Hxi).
    destruct (Hfr i fr Hi) as (xi' & si' & Hxi' & Hsi' & _ & _ & _ & Gs & _).
    simpl. congruence.
Qed.

(** The sample head on feature maps 2x2, 1x1 and 1x1: 4 + 1 + 1 anchors. *)
Lemma inference_slices_witness :
  exists ap st,
    generate_anchors sample_x1 (stride sample_eval_head)
      (grid_cell_size sample_eval_head) (grid_cell_offset sample_eval_head) = Ok (ap, st)
    /\ length ap = 6
    /\ concat (map f_scale_anchor_points sample_frames) = ap
    /\ concat (map f_scale_stride sample_frames) = st.
Proof.
  destruct (inference_slices sample_run sample_eval_head sample_x1 sample_frames)
    as (ap & st & Hgen & _ & Hap & _ & _ & Hcat & Hcat').
  - vm_compute. reflexivity.
  - reflexivity.
  - exists ap, st. split; [exact Hgen|]. split; [|split; assumption].
    rewrite Hap. reflexivity.
Defined.

(** ** Stride scaling *)

Lemma list_choice {A B} (P : nat -> A -> B -> Prop) (l : list A) :
  (forall i a, l !! i = Some a -> exists b, P i a b) ->
  exists l', length l' = length l
             /\ forall i a b, l !! i = Some a -> l' !! i = Some b -> P i a b.
Proof.
  revert P. induction l as [|a l IH]; intros P H.
  - exists []. split; [done|]. intros i a b Ha. done.
  - destruct (H 0 a eq_refl) as [b Hb].
    destruct (IH (fun i => P (S i))) as (l' & Hlen & Hl').
    { intros i a' Hi. by apply (H (S i)). }
    exists (b :: l'). split; [simpl; lia|].
    intros [|i] a' b' Ha Hb'; simpl in *; [congruence | by eapply Hl'].
Qed.




Section StrideScaling.

Variable run : module -> tensor -> result tensor.



End StrideScaling.


(** ** The sigmoid on the classification output *)




(** ** The inference output *)

Lemma dist2bbox_Ok rows ap fmt dec :
  dist2bbox rows ap fmt = Ok dec ->
  shape rows = [length ap; 4] /\ shape dec = [length ap; 4].
Proof.
  unfold dist2bbox.
  destruct (shape rows) as [|n [|k l]]; try discriminate.
  destruct k as [|[|[|[|[|k]]]]]; try discriminate; destruct l; try discriminate.
  destruct (n =? length ap) eqn:E; [|discriminate].
  apply Nat.eqb_eq in E as ->. intros [= <-]. done.
Qed.

Lemma reshape_Ok t s t' :
  reshape t s = Ok t' -> numel s = numel (shape t) /\ shape t' = s /\ data t' = data t.
Proof.
  unfold reshape. destruct (numel s =? numel (shape t)) eqn:E; [|discriminate].
  apply Nat.eqb_eq in E. intros [= <-]. done.
Qed.

Lemma flat_map_ext_seq {A} (f g : nat -> list A) (n : nat) :
  (forall o, o < n -> f o = g o) -> flat_map f (seq 0 n) = flat_map g (seq 0 n).
Proof.
  intros H. induction n as [|n IH]; [done|].
  rewrite seq_S, !flat_map_app. simpl. rewrite IH, H, !app_nil_r; auto.
Qed.

Section InferenceOutput.

Variable run : module -> tensor -> result tensor.

(** The inference branch can only return on feature maps of batch size 1:
    the [b * h * w] regression rows of a scale are decoded against the
    [h * w] anchor points of its slice, and the decoder takes as many
    anchor points as distance rows. *)
Lemma inference_batch_one self x frames i xi :
  inference_frames run self x = Ok frames ->
  i < nl self -> x !! i = Some xi ->
  exists c h w, shape xi = [1; c; h; w].
Proof.
  intros Hrun Hi Hxi.
  destruct (inference_frames_inv run self x frames Hrun)
    as (ap & st & Hgen & Hlen & Hrounds & _).
  destruct (lookup_lt_is_Some_2 frames i) as [fr Hfr]; [lia|].
  destruct (generate_anchors_slices _ _ _ _ _ _ i xi Hgen Hxi) as (si & _ & Hpos & Ga & _).
  destruct (Hrounds i fr Hfr)
    as (xi0 & b & c & h & w & feat & cls_feat & reg_feat & cls_raw & reg_raw & rows
        & boxes & s0 & Hxi0 & Hs & _ & _ & _ & _ & _ & _ & _ & _ & _ & Hap & _ & _
        & Hdec & Hre & _).
  assert (xi0 = xi) as -> by congruence.
  assert (spatial_size xi = h * w) as Hsz by (unfold spatial_size; by rewrite Hs).
  rewrite Hsz in Ga, Hpos. rewrite Ga in Hap.
  apply dist2bbox_Ok in Hdec as [_ Hsd].
  rewrite Hap, length_scale_anchor_grid, <- spatial_size_hw, Hsz in Hsd.
  apply reshape_Ok in Hre as (Hn & _ & _). rewrite Hsd in Hn. simpl in Hn.
  exists c, h, w. rewrite Hs. f_equal. nia.
Qed.

(** X17: what a returning call of the inference branch returns: one tensor
    per scale, in scale order; the tensor of a [(b, c, h, w)] feature map
    has shape [(b, h, w, 4 + 1 + k)] for the [k] channels of the
    classification output, and each of its [b * h * w] rows is the box
    row (4 values), then the constant 1, then the classification row. *)
Lemma inference_output_layout self x frames :
  inference_frames run self x = Ok frames ->
  forward_inference run self x = Ok (map f_scale_output frames)
  /\ length (map f_scale_output frames) = nl self
  /\ forall i fr, frames !! i = Some fr ->
       exists xi b c h w k,
         x !! i = Some xi /\ shape xi = [b; c; h; w]
         /\ shape (f_pred_bboxes fr) = [b; h; w; 4]
         /\ shape (f_cls_output fr) = [b; h; w; k]
         /\ shape (f_scale_output fr) = [b; h; w; 4 + 1 + k]
         /\ data (f_scale_output fr)
            = flat_map (fun o => chunk 3 (f_pred_bboxes fr) o ++ [1%R]
                                 ++ chunk 3 (f_cls_output fr) o)
                       (seq 0 (numel [b; h; w])).
Proof.
  intros Hrun.
  destruct (inference_frames_inv run self x frames Hrun)
    as (ap & st & Hgen & Hlen & Hrounds & _).
  split; [unfold forward_inference; by rewrite Hrun|].
  split; [by rewrite length_map|].
  intros i fr Hfr.
  destruct (Hrounds i fr Hfr)
    as (xi & b & c & h & w & feat & cls_feat & reg_feat & cls_raw & reg_raw & rows
        & boxes & s0 & Hxi & Hs & _ & _ & _ & _ & _ & _ & _ & _ & _ & _ & _ & _
        & _ & Hre & _ & Hpred & Hcat).
  apply reshape_Ok in Hre as (_ & Hsb & _).
  assert (shape (f_pred_bboxes fr) = [b; h; w; 4]) as Hsp by (by rewrite Hpred).
  unfold torch_cat_last, torch_cat in Hcat. rewrite Hsp in Hcat. simpl in Hcat.
  destruct (cat_compatible 3 [b; h; w; 4] (shape (f_cls_output fr))) eqn:Hcompat;
    [|by rewrite !andb_false_r in Hcat].
  unfold cat_compatible in Hcompat.
  apply andb_prop in Hcompat as [Hcompat _]. apply andb_prop in Hcompat as [Hl Ht].
  apply bool_decide_eq_true in Hl, Ht.
  destruct (shape (f_cls_output fr)) as [|b' [|h' [|w' [|k [|]]]]] eqn:Hsc; try discriminate.
  simpl in Ht. injection Ht as -> -> ->.
  destruct (_ && _); [|discriminate]. injection Hcat as Hout.
  exists xi, b, c, h, w, k. rewrite <- Hout. cbn [shape data].
  repeat (split; [done|]). split.
  - rewrite Hsp. simpl. by rewrite Nat.add_0_r.
  - simpl numel. apply flat_map_ext_seq. intros o Ho. rewrite app_nil_r.
    do 2 f_equal. unfold chunk, torch_ones, torch_full. cbn [shape data].
    rewrite drop_replicate, take_replicate. simpl numel.
    replace (_ `min` _) with 1 by lia. done.
Qed.

End InferenceOutput.

(** C2, at batch size 2: on feature maps [(2, 2, 2, 2)], [(2, 2, 1, 1)],
    [(2, 2, 1, 1)] the inference branch raises instead of returning tensors
    of shapes [(2, 2, 2, 7)], [(2, 1, 1, 7)], [(2, 1, 1, 7)]; on the same
    maps with batch size 1 it returns the three tensors. *)
Theorem forward_inference_batch_two :
  forward_inference sample_run sample_eval_head sample_x2 = Raise RuntimeError
  /\ map shape sample_x2 = [[2; 2; 2; 2]; [2; 2; 1; 1]; [2; 2; 1; 1]]
  /\ map shape <$> forward_inference sample_run sample_eval_head sample_x1
     = Ok [[1; 2; 2; 7]; [1; 1; 1; 7]; [1; 1; 1; 7]].
Proof. vm_compute. repeat split. Qed.

(** * Further properties of the code *)

(** ** The builder and the constructor together *)

Lemma build_effidehead_layer_length init cl na ncl rm hl :
  build_effidehead_layer init cl na ncl rm = Ok hl -> length hl = 18.
Proof. unfold build_effidehead_layer. intros H. inv_bind. done. Qed.

Lemma build_effidehead_layer_short init cl na ncl rm :
  length cl < 11 -> build_effidehead_layer init cl na ncl rm = Raise IndexError.
Proof.
  intros Hlen. unfold build_effidehead_layer.
  destruct (getitem cl 6) as [c6|e] eqn:E6; simpl;
    [|by apply getitem_Raise in E6 as [-> _]].
  destruct (getitem cl 8) as [c8|e] eqn:E8; simpl;
    [|by apply getitem_Raise in E8 as [-> _]].
  rewrite getitem_ge by lia. done.
Qed.

(** X1: [build_effidehead_layer] reads [channels_list[6]], [[8]] and
    [[10]]: it returns exactly when the list has at least 11 entries, what
    it returns are 18 layers, and the only exception it raises is an index
    out of range. *)
Theorem build_effidehead_layer_returns init cl na ncl rm :
  ((exists hl, build_effidehead_layer init cl na ncl rm = Ok hl) <-> 11 <= length cl)
  /\ (forall hl, build_effidehead_layer init cl na ncl rm = Ok hl -> length hl = 18)
  /\ (forall e, build_effidehead_layer init cl na ncl rm = Raise e -> e = IndexError).
Proof.
  split; [split|split].
  - intros (hl & H). destruct (decide (11 <= length cl)) as [|Hn]; [done|].
    rewrite build_effidehead_layer_short in H by lia. discriminate.
  - intros Hlen. destruct (build_effidehead_layer_Ok init cl na ncl rm Hlen) as (hl & H & _).
    eauto.
  - apply build_effidehead_layer_length.
  - intros e H. destruct (decide (11 <= length cl)) as [Hlen|Hn].
    + destruct (build_effidehead_layer_Ok init cl na ncl rm Hlen) as (hl & H' & _).
      congruence.
    + rewrite build_effidehead_layer_short in H by lia. congruence.
Qed.

(** Eleven channel counts are enough. *)
Lemma build_effidehead_layer_returns_witness :
  length sample_layers = 18
  /\ exists hl, build_effidehead_layer torch_zeros (replicate 11 2) 1 2 1 = Ok hl.
Proof.
  destruct (build_effidehead_layer_returns torch_zeros (replicate 11 2) 1 2 1)
    as (Hiff & Hlen & _).
  split.
  - apply Hlen. reflexivity.
  - apply Hiff. simpl. lia.
Defined.

(** X2: the 18 layers the builder returns are the layers of three scales:
    the constructor accepts them for every [num_layers] up to 3, and for
    a larger [num_layers] it raises an index out of range. *)
Theorem built_layers_construct init init' cl na ncl ncl' rm rm' ip dfl n hl :
  build_effidehead_layer init cl na ncl rm = Ok hl ->
  ((exists self, Detect_init init' ncl' n ip (Some hl) dfl rm' = Ok self) <-> n <= 3)
  /\ (3 < n -> Detect_init init' ncl' n ip (Some hl) dfl rm' = Raise IndexError).
Proof.
  intros Hb. apply build_effidehead_layer_length in Hb.
  split; [split|].
  - intros (self & H). destruct (decide (n <= 3)) as [|Hn]; [done|].
    rewrite Detect_init_short in H by lia. discriminate.
  - intros Hn. destruct (Detect_init_Ok init' ncl' n ip hl dfl rm') as (self & H & _); [lia|].
    eauto.
  - intros Hn. apply Detect_init_short. lia.
Qed.

(** The sample layers, for two scales and for four. *)
Lemma built_layers_construct_witness :
  (exists self, Detect_init torch_zeros 2 2 true (Some sample_layers) true 1 = Ok self)
  /\ Detect_init torch_zeros 2 4 true (Some sample_layers) true 1 = Raise IndexError.
Proof.
  split.
  - apply (built_layers_construct torch_zeros torch_zeros (replicate 11 2) 1 2 2 1 1
             true true 2 sample_layers); [reflexivity | lia].
  - apply (built_layers_construct torch_zeros torch_zeros (replicate 11 2) 1 2 2 1 1
             true true 4 sample_layers); [reflexivity | lia].
Defined.

(** ** When [initialize_biases] returns *)






(** X4: a head constructed from the layers the builder returns can
    always be initialised: its projections are [Conv2d] modules created
    with a bias, so [initialize_biases] returns. *)
Theorem built_head_initialises init init' cl na ncl ncl' rm rm' ip dfl n hl self :
  build_effidehead_layer init cl na ncl rm = Ok hl ->
  Detect_init init' ncl' n ip (Some hl) dfl rm' = Ok self ->
  exists self', initialize_biases self = Ok self'.
Proof.
  intros Hb Hinit.
  pose proof (build_effidehead_layer_length _ _ _ _ _ _ Hb) as Hlen.
  destruct (decide (n <= 3)) as [Hn|Hn];
    [|rewrite Detect_init_short in Hinit by lia; discriminate].
  destruct (Detect_init_Ok init' ncl' n ip hl dfl rm')
    as (self0 & H0 & _ & _ & _ & _ & _ & _ & _ & _ & _ & _ & _ & Ec & Ed & Er); [lia|].
  rewrite Hinit in H0. injection H0 as <-.
  apply initialize_biases_total. rewrite Ec, Ed, Er.
  unfold build_effidehead_layer in Hb.
  apply bind_Ok in Hb as (c6 & _ & Hb). apply bind_Ok in Hb as (c8 & _ & Hb).
  apply bind_Ok in Hb as (c10 & _ & Hb). injection Hb as <-.
  destruct n as [|[|[|[|n]]]]; [| | | |lia]; cbn;
    repeat (constructor; [eexists _, _; split; reflexivity|]); constructor.
Qed.

(** The sample layers and the head constructed from them. *)
Lemma built_head_initialises_witness :
  exists self', initialize_biases sample_built = Ok self'.
Proof.
  apply (built_head_initialises torch_zeros torch_zeros (replicate 11 2) 1 2 2 1 1
           true true 3 sample_layers sample_built); reflexivity.
Defined.

(** ** Initialising twice *)

Lemma init_pred_fixed v m m' : init_pred v m = Ok m' -> init_pred v m' = Ok m'.
Proof.
  unfold init_pred. destruct m as [|conv]; [discriminate|].
  destruct (bias conv) as [b|]; [|discriminate]. intros [= <-]. simpl.
  unfold fill_, view_flat. simpl. by rewrite !length_replicate, !Nat.mul_1_r.
Qed.

Lemma init_preds_fixed v ms ms' :
  mapM_result (init_pred v) ms = Ok ms' -> mapM_result (init_pred v) ms' = Ok ms'.
Proof.
  intros H. apply mapM_result_Ok in H. apply mapM_result_Ok.
  induction H as [|m m' ms ms' Hm _ IH]; constructor; [|done].
  by eapply init_pred_fixed.
Qed.

(** X5: [initialize_biases] is idempotent: on a head it has returned, a
    second call returns the same head. *)
Theorem initialize_biases_idempotent self self' :
  initialize_biases self = Ok self' -> initialize_biases self' = Ok self'.
Proof.
  unfold initialize_biases. intros H.
  apply bind_Ok in H as (cp & Hcp & H). apply bind_Ok in H as (rd & Hrd & H).
  apply bind_Ok in H as (rp & Hrp & H). apply bind_Ok in H as (w & Hw & H).
  injection H as <-.
  cbn [prior_prob reg_max cls_preds reg_preds_dist reg_preds proj_conv set_projections].
  rewrite (init_preds_fixed _ _ _ Hcp). cbn [mbind result_bind].
  rewrite (init_preds_fixed _ _ _ Hrd). cbn [mbind result_bind].
  rewrite (init_preds_fixed _ _ _ Hrp). cbn [mbind result_bind].
  rewrite Hw. done.
Qed.

(** The sample head is the constructed head initialised once. *)
Lemma initialize_biases_idempotent_witness :
  initialize_biases sample_head = Ok sample_head.
Proof.
  apply (initialize_biases_idempotent sample_built sample_head).
  vm_compute. reflexivity.
Defined.

(** ** The initial confidence *)




(** ** The feature-map list, whatever the outcome *)

Section ListFrame.

Variable run : module -> tensor -> result tensor.

Lemma training_scale_frame self x i x' r :
  training_scale run self x i = (x', r) ->
  x' = x
  \/ exists xi st xi', x !! i = Some xi /\ stems self !! i = Some st
                       /\ run st xi = Ok xi' /\ x' = <[i := xi']> x.
Proof.
  unfold training_scale.
  destruct (_ ≫= _) as [xi'|e] eqn:E; intros [= <- _]; [right | by left].
  apply bind_Ok in E as (st & Hst & E). apply bind_Ok in E as (xi & Hxi & E).
  apply getitem_Ok in Hst, Hxi. exists xi, st, xi'. done.
Qed.

Lemma training_loop_frame self m : forall k x acc xf r,
  training_loop run self (seq k m) x acc = (xf, r) ->
  length xf = length x
  /\ forall i, xf !! i = x !! i
       \/ (k <= i < k + m
           /\ exists xi st xi', x !! i = Some xi /\ stems self !! i = Some st
                                /\ run st xi = Ok xi' /\ xf !! i = Some xi').
Proof.
  induction m as [|m IH]; intros k x acc xf r H.
  - simpl in H. injection H as <- _. split; [done|]. intros i. by left.
  - simpl in H. destruct (training_scale run self x k) as [x1 r1] eqn:E.
    assert (length xf = length x1
            /\ forall i, xf !! i = x1 !! i
                 \/ (S k <= i < S k + m
                     /\ exists xi st xi', x1 !! i = Some xi /\ stems self !! i = Some st
                                          /\ run st xi = Ok xi' /\ xf !! i = Some xi'))
      as [Hlen Hslots].
    { destruct r1 as [[[c d] l]|e]; [by eapply IH|].
      injection H as <- _. split; [done|]. intros i. by left. }
    clear H. apply training_scale_frame in E as [->|(xi & st & xi' & Hxi & Hst & Hrun & ->)].
    + split; [done|]. intros i. destruct (Hslots i) as [?|(? & ?)]; [by left|].
      right. split; [lia | done].
    + rewrite length_insert in Hlen. split; [done|]. intros i.
      assert (k < length x) as Hk by (by eapply lookup_lt_Some).
      destruct (Hslots i) as [Heq|(Hi & xi0 & st0 & xi0' & Hxi0 & Hrest)].
      * destruct (decide (i = k)) as [->|Hne].
        -- right. split; [lia|]. exists xi, st, xi'.
           rewrite Heq, list_lookup_insert_eq by done. done.
        -- left. by rewrite Heq, list_lookup_insert_ne.
      * right. split; [lia|]. exists xi0, st0, xi0'.
        rewrite list_lookup_insert_ne in Hxi0 by lia. done.
Qed.

(** X7: whatever the outcome of [forward], an exception included, every
    other object is left alone and the caller's list keeps its length; a
    slot of the list changes only in training mode, only at an index
    below [nl], and only to the stem output of what it held. *)
Theorem forward_changes_only_stem_slots self x h h' r :
  forward run self x h = (h', r) ->
  (forall y, y <> x -> h' !! y = h !! y)
  /\ forall xs, h !! x = Some xs ->
       exists xs',
         h' !! x = Some xs' /\ length xs' = length xs
         /\ forall i, xs' !! i = xs !! i
              \/ (training self = true /\ i < nl self
                  /\ exists xi st xi', xs !! i = Some xi /\ stems self !! i = Some st
                                       /\ run st xi = Ok xi' /\ xs' !! i = Some xi').
Proof.
  unfold forward. destruct (h !! x) as [xs0|] eqn:Hx.
  - destruct (training self) eqn:Ht.
    + intros [= <- _]. split; [intros y Hy; by apply lookup_insert_ne|].
      intros xs [= <-]. unfold forward_training. simpl.
      destruct (training_loop run self (seq 0 (nl self)) xs0 ([], [], []))
        as [xf res] eqn:Hloop. simpl.
      destruct (training_loop_frame self _ _ _ _ _ _ Hloop) as [Hlen Hslots].
      exists xf. split; [apply lookup_insert_eq|]. split; [done|].
      intros i. destruct (Hslots i) as [?|(Hi & Hrest)]; [by left|].
      right. split; [done|]. split; [simpl in Hi; lia | done].
    + intros [= <- _]. split; [done|]. intros xs [= <-].
      exists xs0. split; [done|]. split; [done|]. intros i. by left.
  - intros [= <- _]. split; [done|]. intros xs Hxs. discriminate.
Qed.

(** X8: the training branch returns only for a head of at least one
    scale ([torch.cat] of an empty list raises) on a list of at least [nl]
    feature maps. *)
Theorem forward_training_needs_scales self x out :
  (forward_training run self x).2 = Ok out ->
  1 <= nl self /\ nl self <= length x.
Proof.
  unfold forward_training. simpl.
  destruct (training_loop run self (seq 0 (nl self)) x ([], [], [])) as [xf res] eqn:Hloop.
  simpl. intros H. apply bind_Ok in H as (lists & -> & H).
  destruct (training_loop_inv run self _ _ _ _ _ _ Hloop) as (frs & Hfrs & -> & _ & Hfr & _).
  simpl in H. split.
  - destruct frs as [|fr frs]; [|simpl in Hfrs; lia].
    simpl in H. unfold torch_cat in H. discriminate.
  - destruct (decide (nl self <= length x)) as [|Hn]; [done|]. exfalso.
    destruct (lookup_lt_is_Some_2 frs (length x)) as [fr Hi]; [lia|].
    destruct (Hfr _ fr Hi) as (xi & Hxi & _). simpl in Hxi.
    apply lookup_lt_Some in Hxi. lia.
Qed.

(** A training call that returns, when it is repeated on the same list. *)
Lemma forward_train_inv self x h h' out :
  training self = true ->
  forward run self x h = (h', Ok out) ->
  exists xs xs',
    h !! x = Some xs /\ h' !! x = Some xs'
    /\ forall i, i < nl self ->
         exists xi st xi', xs !! i = Some xi /\ stems self !! i = Some st
                           /\ run st xi = Ok xi' /\ xs' !! i = Some xi'.
Proof.
  intros Ht. unfold forward. rewrite Ht.
  destruct (h !! x) as [xs|] eqn:Hx; [|discriminate].
  intros [= <- Hout]. unfold forward_training in *. simpl in *.
  destruct (training_loop run self (seq 0 (nl self)) xs ([], [], [])) as [xf res] eqn:Hloop.
  simpl in *. apply bind_Ok in Hout as (tensors & Hres & _).
  apply bind_Ok in Hres as (lists & -> & _).
  destruct (training_loop_inv run self _ _ _ _ _ _ Hloop) as (frs & Hfrs & _ & _ & Hfr & _).
  exists xs, xf. split; [done|]. split; [apply lookup_insert_eq|].
  intros i Hi. destruct (lookup_lt_is_Some_2 frs i) as [fr Hi']; [lia|].
  destruct (Hfr i fr Hi') as (xi & Hxi & (Hstem & _) & Hxf). simpl in *.
  apply call_Ok in Hstem as (st & Hst & Hrun). exists xi, st, (t_feat fr). done.
Qed.

(** X9: the list is shared, so a second training call on the same list
    starts from the stem outputs the first call has stored: after two
    returning calls, slot [i] holds the stem of scale [i] applied twice
    to the feature map the caller first put there. *)
Theorem forward_twice_applies_stems_twice self x h h1 h2 out1 out2 i :
  training self = true ->
  forward run self x h = (h1, Ok out1) ->
  forward run self x h1 = (h2, Ok out2) ->
  i < nl self ->
  exists xs xs2 xi st y z,
    h !! x = Some xs /\ h2 !! x = Some xs2
    /\ xs !! i = Some xi /\ stems self !! i = Some st
    /\ run st xi = Ok y /\ run st y = Ok z /\ xs2 !! i = Some z.
Proof.
  intros Ht H1 H2 Hi.
  destruct (forward_train_inv self x h h1 out1 Ht H1) as (xs & xs1 & Hxs & Hxs1 & Hs1).
  destruct (forward_train_inv self x h1 h2 out2 Ht H2) as (xs1' & xs2 & Hxs1' & Hxs2 & Hs2).
  assert (xs1' = xs1) as -> by congruence.
  destruct (Hs1 i Hi) as (xi & st & y & Hxi & Hst & Hy & Hy').
  destruct (Hs2 i Hi) as (y' & st' & z & Hy'' & Hst' & Hz & Hz').
  assert (y' = y) as -> by congruence. assert (st' = st) as -> by congruence.
  exists xs, xs2, xi, st, y, z. done.
Qed.

End ListFrame.

(** The head of three scales on a list of two feature maps: the call
    raises, and the list still has two entries. *)
Lemma forward_changes_only_stem_slots_witness :
  (forward sample_run sample_head 7 short_heap).2 = Raise IndexError
  /\ exists xs', (forward sample_run sample_head 7 short_heap).1 !! 7 = Some xs'
                 /\ length xs' = 2.
Proof.
  split; [vm_compute; reflexivity|].
  destruct (forward_changes_only_stem_slots sample_run sample_head 7 short_heap _ _
              (surjective_pairing _)) as [_ H].
  destruct (H (take 2 sample_x1) eq_refl) as (xs' & Hxs' & Hlen & _).
  exists xs'. split; [exact Hxs' | exact Hlen].
Defined.

(** Three scales of the sample head, on the sample feature maps. *)
Lemma forward_training_needs_scales_witness :
  1 <= nl sample_head /\ nl sample_head <= length sample_x.
Proof.
  apply (forward_training_needs_scales sample_run sample_head sample_x sample_training_tensors).
  vm_compute. reflexivity.
Defined.

(** Two training calls of the sample head on the list at reference 7. *)
Lemma forward_twice_applies_stems_twice_witness :
  exists xs xs2 xi st y z,
    sample_heap !! 7 = Some xs /\ sample_heap_twice !! 7 = Some xs2
    /\ xs !! 0 = Some xi /\ stems sample_head !! 0 = Some st
    /\ sample_run st xi = Ok y /\ sample_run st y = Ok z /\ xs2 !! 0 = Some z.
Proof.
  apply (forward_twice_applies_stems_twice sample_run sample_head 7 sample_heap
           sample_heap_once sample_heap_twice
           sample_training_output sample_training_output_twice 0).
  - reflexivity.
  - vm_compute. reflexivity.
  - vm_compute. reflexivity.
  - vm_compute. lia.
Defined.

(** ** What the inference branch needs, and what it returns *)

(** X10: the inference branch returns only on a non-empty list of at
    least [nl] feature maps whose first [nl] entries are 4-dimensional,
    and then it returns exactly [nl] tensors. *)
Theorem forward_inference_needs_maps run self x outs :
  forward_inference run self x = Ok outs ->
  length outs = nl self /\ 1 <= length x /\ nl self <= length x
  /\ forall i, i < nl self ->
       exists xi b c h w, x !! i = Some xi /\ shape xi = [b; c; h; w].
Proof.
  unfold forward_inference. intros H. apply bind_Ok in H as (frames & Hrun & H).
  injection H as <-. rewrite length_map.
  destruct (inference_frames_inv run self x frames Hrun)
    as (ap & st & _ & Hlen & Hrounds & x0 & Hx0).
  assert (forall i, i < nl self ->
            exists xi b c h w, x !! i = Some xi /\ shape xi = [b; c; h; w]) as Hmaps.
  { intros i Hi. destruct (lookup_lt_is_Some_2 frames i) as [fr Hfr]; [lia|].
    destruct (Hrounds i fr Hfr) as (xi & b & c & h & w & ? & ? & ? & ? & ? & ? & ? & ?
                                    & Hxi & Hs & _).
    exists xi, b, c, h, w. done. }
  split; [done|]. split; [by apply lookup_lt_Some in Hx0; lia|]. split; [|done].
  destruct (decide (nl self <= length x)) as [|Hn]; [done|]. exfalso.
  destruct (Hmaps (length x)) as (xi & _ & _ & _ & _ & Hxi & _); [lia|].
  apply lookup_lt_Some in Hxi. lia.
Qed.

(** The sample head on its three batch-1 feature maps. *)
Lemma forward_inference_needs_maps_witness :
  length (map f_scale_output sample_frames) = nl sample_eval_head
  /\ nl sample_eval_head <= length sample_x1.
Proof.
  destruct (forward_inference_needs_maps sample_run sample_eval_head sample_x1
              (map f_scale_output sample_frames)) as (Hlen & _ & Hnl & _).
  - vm_compute. reflexivity.
  - split; [exact Hlen | exact Hnl].
Defined.

(** The three tensors the sample head returns, with their objectness. *)
Lemma inference_output_layout_witness :
  forward_inference sample_run sample_eval_head sample_x1
  = Ok (map f_scale_output sample_frames)
  /\ length (map f_scale_output sample_frames) = nl sample_eval_head.
Proof.
  destruct (inference_output_layout sample_run sample_eval_head sample_x1 sample_frames)
    as (Hrun & Hlen & _).
  - vm_compute. reflexivity.
  - split; [exact Hrun | exact Hlen].
Defined.

(** ** The two modes on one feature map *)




(** ** From the builder to the training output *)

Section BuiltHead.

Variable run : module -> tensor -> result tensor.

Lemma scale_fits_round self b i xi kc kd kl :
  scale_fits run self b i xi kc kd kl ->
  exists fr,
    training_round run self i xi fr
    /\ shape (t_cls fr) = [b; spatial_size xi; kc] /\ wf_tensor (t_cls fr)
    /\ shape (t_dist fr) = [b; spatial_size xi; kd] /\ wf_tensor (t_dist fr)
    /\ shape (t_lrtb fr) = [b; spatial_size xi; kl] /\ wf_tensor (t_lrtb fr).
Proof.
  intros (c & h & w & st & cc & rc & cp & rd & rp & Hs & Hwf
          & Hst & Hcc & Hrc & Hcp & Hrd & Hrp
          & Rst & Rcc & Rrc & Rcp & Rrd & Rrp
          & Ist & Icc & Irc & Icp & Ird & Irp & Ocp & Ord & Orp).
  destruct (Rst xi b h w) as (feat & Hfeat & Sfeat & Wfeat); [congruence | done |].
  destruct (Rcc feat b h w) as (cf & Hcf & Scf & Wcf); [congruence | done |].
  destruct (Rrc feat b h w) as (rf & Hrf & Srf & Wrf); [congruence | done |].
  destruct (Rcp cf b h w) as (co & Hco & Sco & Wco); [congruence | done |].
  destruct (Rrd rf b h w) as (ro & Hro & Sro & Wro); [congruence | done |].
  destruct (Rrp rf b h w) as (rl & Hrl & Srl & Wrl); [congruence | done |].
  destruct (flatten_permute_wf (torch_sigmoid co) b kc h w)
    as (tc & Htc & Stc & Wtc); [simpl; congruence|].
  destruct (flatten_permute_wf ro b kd h w) as (td & Htd & Std & Wtd); [congruence|].
  destruct (flatten_permute_wf rl b kl h w) as (tl & Htl & Stl & Wtl); [congruence|].
  exists (mkTrainFrame feat cf co rf ro rl tc td tl).
  unfold training_round, spatial_size. rewrite Hs. simpl.
  repeat split; try done; apply call_Ok; eauto.
Qed.

(** The training branch on scales that fit, for any channel counts of
    the three projections. *)
Lemma forward_training_fits self x b kc kd kl :
  1 <= nl self -> nl self = length x ->
  (forall i xi, x !! i = Some xi -> scale_fits run self b i xi kc kd kl) ->
  exists cls dist lrtb,
    (forward_training run self x).2 = Ok (cls, dist, lrtb)
    /\ shape cls = [b; total_anchors x; kc]
    /\ shape dist = [b; total_anchors x; kd]
    /\ shape lrtb = [b; total_anchors x; kl].
Proof.
  intros Hnl Hlen Hfits. unfold forward_training.
  destruct (training_loop_total run self (nl self) 0 x ([], [], [])) as (xf & out & Hloop).
  { intros j Hj. destruct (lookup_lt_is_Some_2 x j) as [xi Hxi]; [lia|].
    destruct (scale_fits_round self b j xi kc kd kl (Hfits j xi Hxi)) as (fr & Hr & _).
    exists xi, fr. done. }
  destruct (training_loop_inv run self _ _ _ _ _ _ Hloop)
    as (frs & Hfrs & -> & _ & Hfr & _).
  rewrite Hloop. simpl.
  assert (forall (f : train_frame -> tensor) k,
            (forall j fr xi, frs !! j = Some fr -> x !! j = Some xi ->
               training_round run self j xi fr ->
               forall fr', training_round run self j xi fr' ->
                 shape (f fr') = [b; spatial_size xi; k] /\ wf_tensor (f fr')) ->
            exists t, torch_cat (map f frs) 1 = Ok t /\ shape t = [b; total_anchors x; k])
    as Hcat.
  { intros f k Hf.
    assert (forall j fr, frs !! j = Some fr ->
              exists xi, x !! j = Some xi
                         /\ shape (f fr) = [b; spatial_size xi; k] /\ wf_tensor (f fr)) as Hf'.
    { intros j fr Hj. destruct (Hfr j fr Hj) as (xi & Hxi & Hr & _). simpl in *.
      exists xi. split; [done|]. by eapply Hf. }
    destruct (torch_cat_axis1 (map f frs) b k) as (t & Ht & Hs & _).
    - destruct frs; [simpl in Hfrs; lia | done].
    - apply Forall_map, Forall_lookup. intros j fr Hj.
      destruct (Hf' j fr Hj) as (xi & _ & Hs & Hwf). eauto.
    - exists t. split; [done|]. rewrite Hs. do 2 f_equal. apply sum_rows.
      apply Forall2_same_length_lookup_2; [lia|].
      intros j fr xi Hj Hxi. destruct (Hf' j fr Hj) as (xi' & Hxi' & Hs' & _).
      rewrite Hs'. simpl. congruence. }
  assert (forall j fr xi, frs !! j = Some fr -> x !! j = Some xi ->
            training_round run self j xi fr ->
            shape (t_cls fr) = [b; spatial_size xi; kc] /\ wf_tensor (t_cls fr)
            /\ shape (t_dist fr) = [b; spatial_size xi; kd] /\ wf_tensor (t_dist fr)
            /\ shape (t_lrtb fr) = [b; spatial_size xi; kl] /\ wf_tensor (t_lrtb fr))
    as Hshape.
  { intros j fr xi Hj Hxi Hr.
    destruct (scale_fits_round self b j xi kc kd kl (Hfits j xi Hxi)) as (fr' & Hr' & Hs').
    by rewrite (training_round_det run self j xi fr fr' Hr Hr'). }
  destruct (Hcat t_cls kc) as (cls & -> & Scls).
  { intros j fr xi Hj Hxi Hr fr' Hr'.
    rewrite <- (training_round_det run self j xi fr fr' Hr Hr').
    destruct (Hshape j fr xi Hj Hxi Hr) as (? & ? & _). done. }
  destruct (Hcat t_dist kd) as (dist & -> & Sdist).
  { intros j fr xi Hj Hxi Hr fr' Hr'.
    rewrite <- (training_round_det run self j xi fr fr' Hr Hr').
    destruct (Hshape j fr xi Hj Hxi Hr) as (_ & _ & ? & ? & _). done. }
  destruct (Hcat t_lrtb kl) as (lrtb & -> & Slrtb).
  { intros j fr xi Hj Hxi Hr fr' Hr'.
    rewrite <- (training_round_det run self j xi fr fr' Hr Hr').
    destruct (Hshape j fr xi Hj Hxi Hr) as (_ & _ & _ & _ & ? & ?). done. }
  simpl. exists cls, dist, lrtb. done.
Qed.

(** Scale [i] of a head constructed from the builder's layers fits a
    feature map of [channels_list[6 + 2 * i]] channels. *)
Lemma built_head_fits init init' cl na ncl ncl' rm rm' ip dfl n hl self b i xi c h w :
  build_effidehead_layer init cl na ncl rm = Ok hl ->
  Detect_init init' ncl' n ip (Some hl) dfl rm' = Ok self ->
  (forall m, m ∈ hl -> respects run m) ->
  i < n -> cl !! (6 + 2 * i) = Some c -> shape xi = [b; c; h; w] -> wf_tensor xi ->
  scale_fits run self b i xi (ncl * na) (4 * (rm + na)) (4 * na).
Proof.
  intros Hb Hinit Hresp Hi Hc Hs Hwf.
  pose proof (build_effidehead_layer_length _ _ _ _ _ _ Hb) as Hhl.
  destruct (decide (n <= 3)) as [Hn|Hn];
    [|rewrite Detect_init_short in Hinit by lia; discriminate].
  destruct (Detect_init_Ok init' ncl' n ip hl dfl rm')
    as (self0 & H0 & _ & Hnl & _ & _ & _ & _ & _ & _ & E0 & E1 & E2 & E3 & E4 & E5); [lia|].
  rewrite Hinit in H0. injection H0 as <-.
  destruct (layers_at_seq hl 0 n) as [_ G0]; [lia|lia|].
  destruct (layers_at_seq hl 1 n) as [_ G1]; [lia|lia|].
  destruct (layers_at_seq hl 2 n) as [_ G2]; [lia|lia|].
  destruct (layers_at_seq hl 3 n) as [_ G3]; [lia|lia|].
  destruct (layers_at_seq hl 4 n) as [_ G4]; [lia|lia|].
  destruct (layers_at_seq hl 5 n) as [_ G5]; [lia|lia|].
  specialize (G0 i Hi). specialize (G1 i Hi). specialize (G2 i Hi).
  specialize (G3 i Hi). specialize (G4 i Hi). specialize (G5 i Hi).
  rewrite <- E0 in G0. rewrite <- E1 in G1. rewrite <- E2 in G2.
  rewrite <- E3 in G3. rewrite <- E4 in G4. rewrite <- E5 in G5.
  assert (forall j m, hl !! j = Some m -> respects run m) as Hresp'.
  { intros j m Hj. apply Hresp. by eapply list_elem_of_lookup_2. }
  destruct (lookup_lt_is_Some_2 hl (6 * i + 0)) as [st Hst]; [lia|].
  destruct (lookup_lt_is_Some_2 hl (6 * i + 1)) as [cc Hcc]; [lia|].
  destruct (lookup_lt_is_Some_2 hl (6 * i + 2)) as [rc Hrc]; [lia|].
  destruct (lookup_lt_is_Some_2 hl (6 * i + 3)) as [cp Hcp]; [lia|].
  destruct (lookup_lt_is_Some_2 hl (6 * i + 4)) as [rd Hrd]; [lia|].
  destruct (lookup_lt_is_Some_2 hl (6 * i + 5)) as [rp Hrp]; [lia|].
  exists c, h, w, st, cc, rc, cp, rd, rp.
  split; [done|]. split; [done|].
  split; [congruence|]. split; [congruence|]. split; [congruence|].
  split; [congruence|]. split; [congruence|]. split; [congruence|].
  split; [by eapply Hresp'|]. split; [by eapply Hresp'|]. split; [by eapply Hresp'|].
  split; [by eapply Hresp'|]. split; [by eapply Hresp'|]. split; [by eapply Hresp'|].
  unfold build_effidehead_layer in Hb.
  apply bind_Ok in Hb as (c6 & H6 & Hb). apply bind_Ok in Hb as (c8 & H8 & Hb).
  apply bind_Ok in Hb as (c10 & H10 & Hb). injection Hb as <-.
  apply getitem_Ok in H6, H8, H10.
  destruct i as [|[|[|i]]]; [| | |lia]; simpl in Hst, Hcc, Hrc, Hcp, Hrd, Hrp, Hc;
    injection Hst as <-; injection Hcc as <-; injection Hrc as <-;
    injection Hcp as <-; injection Hrd as <-; injection Hrp as <-;
    simpl; repeat split; congruence.
Qed.

(** X12: the layers of [build_effidehead_layer], given to the constructor
    for [1 <= num_layers <= 3] scales, make a head whose training branch
    returns on every list of [num_layers] well-formed feature maps of one
    batch size [b] that have [channels_list[6 + 2 * i]] channels at scale
    [i], provided the layers keep to the sub-module interface. The three
    tensors have [num_classes * num_anchors], [4 * (reg_max + num_anchors)]
    and [4 * num_anchors] channels, as the builder was called, whatever
    [num_classes] and [reg_max] the constructor was given. *)
Theorem built_head_training_shapes init init' cl na ncl ncl' rm rm' ip dfl n hl self x b :
  build_effidehead_layer init cl na ncl rm = Ok hl ->
  Detect_init init' ncl' n ip (Some hl) dfl rm' = Ok self ->
  1 <= n -> length x = n ->
  (forall m, m ∈ hl -> respects run m) ->
  (forall i xi, x !! i = Some xi ->
     exists c h w, cl !! (6 + 2 * i) = Some c /\ shape xi = [b; c; h; w] /\ wf_tensor xi) ->
  exists cls dist lrtb,
    (forward_training run self x).2 = Ok (cls, dist, lrtb)
    /\ shape cls = [b; total_anchors x; ncl * na]
    /\ shape dist = [b; total_anchors x; 4 * (rm + na)]
    /\ shape lrtb = [b; total_anchors x; 4 * na].
Proof.
  intros Hb Hinit Hn1 Hlen Hresp Hx.
  assert (nl self = n) as Hnl.
  { destruct (decide (n <= 3)) as [Hn|Hn];
      [|rewrite Detect_init_short in Hinit
          by (rewrite (build_effidehead_layer_length _ _ _ _ _ _ Hb); lia); discriminate].
    destruct (Detect_init_Ok init' ncl' n ip hl dfl rm') as (self0 & H0 & _ & Hnl & _).
    { rewrite (build_effidehead_layer_length _ _ _ _ _ _ Hb). lia. }
    congruence. }
  apply forward_training_fits; [lia | lia |].
  intros i xi Hxi.
  assert (i < n) as Hi by (apply lookup_lt_Some in Hxi; lia).
  destruct (Hx i xi Hxi) as (c & h & w & Hc & Hs & Hwf).
  by eapply built_head_fits.
Qed.

End BuiltHead.

(** The sample layers, three scales, feature maps 4x4, 2x2 and 1x1 of
    two channels, batch size 2. *)
Lemma built_head_training_shapes_witness :
  exists cls dist lrtb,
    (forward_training sample_run sample_built sample_x).2 = Ok (cls, dist, lrtb)
    /\ shape cls = [2; 21; 2] /\ shape dist = [2; 21; 8] /\ shape lrtb = [2; 21; 4].
Proof.
  destruct (built_head_training_shapes sample_run torch_zeros torch_zeros
              (replicate 11 2) 1 2 2 1 1 true true 3 sample_layers sample_built sample_x 2)
    as (cls & dist & lrtb & H & Hc & Hd & Hl).
  - reflexivity.
  - reflexivity.
  - lia.
  - reflexivity.
  - intros m _. apply sample_run_respects.
  - intros i xi Hxi.
    destruct i as [|[|[|i]]]; simpl in Hxi; [| | |discriminate]; injection Hxi as <-;
      eexists _, _, _; (split; [reflexivity|]); split; reflexivity.
  - exists cls, dist, lrtb. split; [exact H|]. rewrite Hc, Hd, Hl. done.
Defined.

(** ** Layers the constructor does not read *)

Lemma layers_at_take hl off m idxs :
  Forall (fun i => i * 6 + off < m) idxs ->
  layers_at (take m hl) off idxs = layers_at hl off idxs.
Proof.
  unfold layers_at. induction 1 as [|i idxs Hi _ IH]; [done|].
  rewrite (omap_app (fun i => take m hl !! (i * 6 + off)) [i] idxs).
  rewrite (omap_app (fun i => hl !! (i * 6 + off)) [i] idxs).
  rewrite IH. f_equal. simpl. rewrite lookup_take.
  by destruct (decide (i * 6 + off < m)).
Qed.

(** X13: the constructor reads the first [6 * num_layers] modules of
    [head_layers] and nothing else: with the modules past them dropped it
    returns the same head. *)
Theorem Detect_init_ignores_extra_layers init ncl n ip hl dfl rm :
  6 * n <= length hl ->
  Detect_init init ncl n ip (Some (take (6 * n) hl)) dfl rm
  = Detect_init init ncl n ip (Some hl) dfl rm.
Proof.
  intros Hlen. unfold Detect_init.
  rewrite !init_loop_Ok by (rewrite ?length_take; simpl; lia).
  unfold with_layers. cbn [stems cls_convs reg_convs cls_preds reg_preds_dist reg_preds].
  assert (forall off, off < 6 ->
            layers_at (take (6 * n) hl) off (seq 0 n) = layers_at hl off (seq 0 n)) as E.
  { intros off Hoff. apply layers_at_take, Forall_forall. intros i Hi.
    apply elem_of_seq in Hi. lia. }
  rewrite !E by lia. done.
Qed.

(** Two scales from the eighteen sample layers, and from their first
    twelve. *)
Lemma Detect_init_ignores_extra_layers_witness :
  Detect_init torch_zeros 2 2 true (Some (take (6 * 2) sample_layers)) true 1
  = Detect_init torch_zeros 2 2 true (Some sample_layers) true 1.
Proof.
  apply (Detect_init_ignores_extra_layers torch_zeros 2 2 true sample_layers true 1).
  simpl. lia.
Defined.

(** ** What [initialize_biases] leaves alone *)

Lemma init_preds_config v ms ms' :
  mapM_result (init_pred v) ms = Ok ms' -> Forall2 same_config ms ms'.
Proof.
  intros H. apply mapM_result_Ok in H. eapply Forall2_impl; [exact H|].
  intros m m' Hm.
  apply init_pred_Ok in Hm as (conv & b & conv' & b' & -> & _ & -> & _ & Hi & Ho & Hk & _).
  done.
Qed.

(** X14: [initialize_biases] changes parameters only. The stems, the
    feature convolutions and every setting of the head (class and scale
    counts, strides, [reg_max], the prior, the training flag) are as
    before, and every projection, [proj_conv] included, keeps its channel
    counts and its kernel size. *)
Theorem initialize_biases_keeps_architecture self self' :
  initialize_biases self = Ok self' ->
  stems self' = stems self /\ cls_convs self' = cls_convs self
  /\ reg_convs self' = reg_convs self
  /\ nc self' = nc self /\ no self' = no self /\ nl self' = nl self
  /\ stride self' = stride self /\ reg_max self' = reg_max self
  /\ prior_prob self' = prior_prob self /\ training self' = training self
  /\ grid_cell_offset self' = grid_cell_offset self
  /\ in_channels (proj_conv self') = in_channels (proj_conv self)
  /\ out_channels (proj_conv self') = out_channels (proj_conv self)
  /\ kernel_size (proj_conv self') = kernel_size (proj_conv self)
  /\ bias (proj_conv self') = bias (proj_conv self)
  /\ Forall2 same_config (cls_preds self) (cls_preds self')
  /\ Forall2 same_config (reg_preds_dist self) (reg_preds_dist self')
  /\ Forall2 same_config (reg_preds self) (reg_preds self').
Proof.
  unfold initialize_biases. intros H.
  apply bind_Ok in H as (cp & Hcp & H). apply bind_Ok in H as (rd & Hrd & H).
  apply bind_Ok in H as (rp & Hrp & H). apply bind_Ok in H as (w & _ & H).
  injection H as <-. simpl. repeat (split; [done|]).
  split; [|split]; by eapply init_preds_config.
Qed.

(** The sample head before and after initialisation. *)
Lemma initialize_biases_keeps_architecture_witness :
  stems sample_head = stems sample_built /\ nl sample_head = nl sample_built.
Proof.
  destruct (initialize_biases_keeps_architecture sample_built sample_head)
    as (Hs & _ & _ & _ & _ & Hnl & _).
  - vm_compute. reflexivity.
  - split; [exact Hs | exact Hnl].
Defined.

(** ** Rows and spatial positions *)

Lemma nth_flat_map_block {A} (g : nat -> list A) (k b n j : nat) (d : A) :
  (forall o, o < b -> length (g o) = k) -> n < b -> j < k ->
  nth (n * k + j) (flat_map g (seq 0 b)) d = nth j (g n) d.
Proof.
  intros Hg Hn Hj. rewrite <- (flat_map_block g k b n Hg Hn).
  rewrite !nth_lookup, lookup_take, lookup_drop.
  by destruct (decide (j < k)).
Qed.

Lemma nth_channels_last b c l d n j k :
  n < b -> j < l -> k < c ->
  nth ((n * l + j) * c + k) (channels_last b c l d) 0%R
  = nth ((n * c + k) * l + j) d 0%R.
Proof.
  intros Hn Hj Hk. unfold channels_last.
  replace ((n * l + j) * c + k) with (n * (l * c) + (j * c + k)) by lia.
  rewrite (nth_flat_map_block _ (l * c) b n); [| |done|nia].
  2:{ intros o _. rewrite (length_flat_map_const _ _ c), length_seq; [done|].
      intros j' _. by rewrite length_map, length_seq. }
  rewrite (nth_flat_map_block _ c l j); [| |done|done].
  2:{ intros o _. by rewrite length_map, length_seq. }
  rewrite (nth_indep _ 0%R (nth ((n * c + 0) * l + j) d 0%R))
    by (rewrite length_map, length_seq; lia).
  rewrite (map_nth (fun k => nth ((n * c + k) * l + j) d 0%R)), seq_nth by done.
  done.
Qed.

Lemma flatten_permute_rows (f : R -> R) raw t out :
  shape t = shape raw -> data t = map f (data raw) ->
  flatten_permute t = Ok out -> rows_of f raw out.
Proof.
  intros Hs Hd H. unfold flatten_permute, flatten2 in H. rewrite Hs in H.
  destruct (shape raw) as [|b [|k [|d2 rest]]] eqn:Hsr; try discriminate.
  cbn [mbind result_bind] in H. unfold permute021 in H. cbn [shape data] in H.
  injection H as <-. exists b, k, d2, rest. split; [done|]. split; [done|].
  intros n j kk Hn Hj Hkk. cbn [data]. rewrite Hd.
  by apply nth_channels_last.
Qed.

(** X15: the three tensors a round of the training loop appends keep
    every prediction with its spatial position: entry [(n, j, k)] of the
    classification tensor is the sigmoid of entry [(n, k, j)] of the
    classification projection's output, where [j] is the row-major offset
    of the position, and the two regression tensors hold the entries of
    the regression projections' outputs themselves, at the same places. *)
Theorem training_rows_follow_the_grid run self x i x' c d l :
  training_scale run self x i = (x', Ok (c, d, l)) ->
  exists xi feat cls_feat reg_feat logits dists dirs,
    x !! i = Some xi
    /\ call run (stems self) i xi = Ok feat
    /\ call run (cls_convs self) i feat = Ok cls_feat
    /\ call run (cls_preds self) i cls_feat = Ok logits
    /\ call run (reg_convs self) i feat = Ok reg_feat
    /\ call run (reg_preds_dist self) i reg_feat = Ok dists
    /\ call run (reg_preds self) i reg_feat = Ok dirs
    /\ rows_of sigmoid logits c
    /\ rows_of (fun v => v) dists d
    /\ rows_of (fun v => v) dirs l.
Proof.
  intros H.
  apply training_scale_inv in H as (xi & fr & Hxi & _ & Hround & <- & <- & <-).
  destruct Hround as (T0 & T1 & T2 & T3 & T4 & T5 & T6 & T7 & T8).
  exists xi, (t_feat fr), (t_cls_feat fr), (t_reg_feat fr), (t_cls_raw fr),
         (t_reg_output fr), (t_reg_output_lrtb fr).
  repeat (split; [done|]). split; [|split].
  - by eapply flatten_permute_rows; [| |exact T6].
  - eapply flatten_permute_rows; [done | | exact T7]. by rewrite map_id.
  - eapply flatten_permute_rows; [done | | exact T8]. by rewrite map_id.
Qed.

(** Round 0 of the sample head on the batch-1 feature maps. *)
Lemma training_rows_follow_the_grid_witness :
  exists logits dirs,
    rows_of sigmoid logits sample_train0.1.1
    /\ rows_of (fun v => v) dirs sample_train0.2.
Proof.
  destruct (training_rows_follow_the_grid sample_run sample_head sample_x1 0
              (training_scale sample_run sample_head sample_x1 0).1
              sample_train0.1.1 sample_train0.1.2 sample_train0.2)
    as (xi & feat & cls_feat & reg_feat & logits & dists & dirs & _ & _ & _ & _ & _ & _ & _
        & Hc & _ & Hl).
  - vm_compute. reflexivity.
  - exists logits, dirs. split; [exact Hc | exact Hl].
Defined.

(** ** From the builder to the inference output *)

Lemma mapM_shape_hw_total x :
  Forall (fun t => exists b c h w, shape t = [b; c; h; w]) x ->
  mapM_result shape_hw x = Ok (map hw_of x).
Proof.
  induction 1 as [|t x (b & c & h & w & Hs) _ IH]; [done|].
  cbn [mapM_result map]. rewrite IH. unfold shape_hw, hw_of. by rewrite Hs.
Qed.

Lemma generate_anchors_total x strides cs off :
  length strides = length x ->
  Forall (fun t => exists b c h w, shape t = [b; c; h; w] /\ 0 < h * w) x ->
  exists ap st, generate_anchors x strides cs off = Ok (ap, st).
Proof.
  intros Hlen Hx. unfold generate_anchors.
  rewrite Hlen, Nat.eqb_refl. simpl.
  rewrite mapM_shape_hw_total.
  2:{ eapply Forall_impl; [exact Hx|]. intros t (b & c & h & w & Hs & _). eauto. }
  simpl. destruct (existsb _ _) eqn:Hex; [|eauto]. exfalso.
  apply existsb_exists in Hex as (hw & Hin & Hz). apply in_map_iff in Hin as (t & <- & Ht).
  rewrite Forall_forall in Hx.
  destruct (Hx t) as (b & c & h & w & Hs & Hpos); [by apply list_elem_of_In|].
  apply Nat.eqb_eq in Hz. unfold hw_of in Hz. rewrite Hs in Hz. simpl in Hz. lia.
Qed.

Lemma permute0231_shape t b c h w :
  shape t = [b; c; h; w] ->
  permute0231 t = Ok {| shape := [b; h; w; c]; data := channels_last b c (h * w) (data t) |}.
Proof. intros Hs. unfold permute0231. by rewrite Hs. Qed.

Lemma reshape_rows4_total t m :
  numel (shape t) = m * 4 ->
  reshape_rows4 t = Ok {| shape := [m; 4]; data := data t |}.
Proof.
  intros Hn. unfold reshape_rows4. rewrite Hn, Nat.Div0.mod_mul, Nat.div_mul by done.
  done.
Qed.

Lemma dist2bbox_total rows ap fmt n :
  shape rows = [n; 4] -> length ap = n ->
  exists dec, dist2bbox rows ap fmt = Ok dec /\ shape dec = [n; 4].
Proof.
  intros Hs Hlen. unfold dist2bbox. rewrite Hs, Hlen, Nat.eqb_refl. eauto.
Qed.

Lemma reshape_total t s :
  numel s = numel (shape t) -> reshape t s = Ok {| shape := s; data := data t |}.
Proof. intros Hn. unfold reshape. by rewrite Hn, Nat.eqb_refl. Qed.

Lemma torch_cat_last_3 t1 t2 t3 b h w k1 k2 k3 :
  shape t1 = [b; h; w; k1] -> shape t2 = [b; h; w; k2] -> shape t3 = [b; h; w; k3] ->
  exists out, torch_cat_last [t1; t2; t3] = Ok out
              /\ shape out = [b; h; w; k1 + (k2 + (k3 + 0))].
Proof.
  intros H1 H2 H3. unfold torch_cat_last, torch_cat. rewrite H1. simpl.
  unfold cat_compatible. rewrite H1, H2, H3. simpl.
  rewrite !bool_decide_eq_true_2 by done. simpl. eauto.
Qed.

Section BuiltHeadInference.

Variable run : module -> tensor -> result tensor.

(** A scale that fits a batch-1 feature map, with a direct regression
    projection of 4 channels, runs its inference round against slices of
    [h * w] entries. *)
Lemma inference_round_fits self x ap st start i xi c h w kc kd s :
  x !! i = Some xi -> shape xi = [1; c; h; w] -> 0 < h * w ->
  scale_fits run self 1 i xi kc kd 4 ->
  length (py_slice ap start (start + h * w)) = h * w ->
  py_slice st start (start + h * w) = replicate (h * w) s ->
  exists fr, inference_round run self x ap st start i fr
             /\ shape (f_scale_output fr) = [1; h; w; 4 + 1 + kc].
Proof.
  intros Hxi Hs Hpos
         (c0 & h0 & w0 & m0 & cc & rc & cp & rd & rp & Hs0 & Hwf
          & Hst & Hcc & Hrc & Hcp & Hrd & Hrp
          & Rst & Rcc & Rrc & Rcp & Rrd & Rrp
          & Ist & Icc & Irc & Icp & Ird & Irp & Ocp & Ord & Orp) Hap Hss.
  rewrite Hs in Hs0. injection Hs0 as <- <- <-.
  destruct (Rst xi 1 h w) as (feat & Hfeat & Sfeat & Wfeat); [congruence | done |].
  destruct (Rcc feat 1 h w) as (cf & Hcf & Scf & Wcf); [congruence | done |].
  destruct (Rrc feat 1 h w) as (rf & Hrf & Srf & Wrf); [congruence | done |].
  destruct (Rcp cf 1 h w) as (co & Hco & Sco & Wco); [congruence | done |].
  destruct (Rrp rf 1 h w) as (rl & Hrl & Srl & Wrl); [congruence | done |].
  rewrite Ocp in Sco. rewrite Orp in Srl.
  pose proof (permute0231_shape (torch_sigmoid co) 1 kc h w Sco) as Hpc.
  pose proof (permute0231_shape rl 1 4 h w Srl) as Hpr.
  set (cls_out := {| shape := [1; h; w; kc];
                     data := channels_last 1 kc (h * w) (data (torch_sigmoid co)) |}) in *.
  set (reg_out := {| shape := [1; h; w; 4];
                     data := channels_last 1 4 (h * w) (data rl) |}) in *.
  destruct (dist2bbox_total {| shape := [h * w; 4]; data := data reg_out |}
              (py_slice ap start (start + h * w)) xywh (h * w) eq_refl Hap)
    as (dec & Hdec & Sdec).
  destruct (torch_cat_last_3
              (mul_scalar {| shape := [1; h; w; 4]; data := data dec |} s)
              (torch_ones [1; h; w; 1]) cls_out 1 h w 4 1 kc eq_refl eq_refl eq_refl)
    as (out & Hout & Sout).
  exists (mkFrame start (start + h * w) (py_slice ap start (start + h * w))
                  (replicate (h * w) s) cls_out reg_out dec
                  (mul_scalar {| shape := [1; h; w; 4]; data := data dec |} s) out).
  split.
  - exists xi, 1, c, h, w, feat, cf, rf, co, rl,
           {| shape := [h * w; 4]; data := data reg_out |},
           {| shape := [1; h; w; 4]; data := data dec |}, s.
    cbn [f_start_idx f_end_idx f_scale_anchor_points f_scale_stride f_cls_output
         f_reg_output f_decoded f_pred_bboxes f_scale_output].
    split; [done|]. split; [done|].
    split; [apply call_Ok; eauto|]. split; [apply call_Ok; eauto|].
    split; [apply call_Ok; eauto|]. split; [apply call_Ok; eauto|].
    split; [apply call_Ok; eauto|].
    repeat (split; [done|]).
    split; [apply reshape_rows4_total; simpl; lia|].
    split; [done|].
    split; [apply reshape_total; rewrite Sdec; simpl; lia|].
    split; [apply lookup_replicate; split; [done | lia]|].
    split; done.
  - cbn [f_scale_output]. rewrite Sout. by rewrite Nat.add_0_r.
Qed.

(** X16: with [generate_anchors] and [dist2bbox] as modelled, a head of
    three scales constructed from the builder's layers for one anchor
    returns, in inference mode, on every list of three well-formed
    batch-1 feature maps that have [channels_list[6 + 2 * i]] channels and
    a positive extent, provided the layers keep to the sub-module
    interface: one tensor per scale, of shape [(1, h, w, 4 + 1 + c)] for
    the [c] classes the builder was given. *)
Theorem built_head_inference_batch_one init init' cl ncl ncl' rm rm' ip dfl hl self x :
  build_effidehead_layer init cl 1 ncl rm = Ok hl ->
  Detect_init init' ncl' 3 ip (Some hl) dfl rm' = Ok self ->
  length x = 3 ->
  (forall m, m ∈ hl -> respects run m) ->
  (forall i xi, x !! i = Some xi ->
     exists c h w, cl !! (6 + 2 * i) = Some c /\ shape xi = [1; c; h; w]
                   /\ wf_tensor xi /\ 0 < h * w) ->
  exists outs,
    forward_inference run self x = Ok outs /\ length outs = 3
    /\ forall i xi, x !! i = Some xi ->
         exists c h w out, shape xi = [1; c; h; w] /\ outs !! i = Some out
                           /\ shape out = [1; h; w; 4 + 1 + ncl].
Proof.
  intros Hb Hinit Hlen Hresp Hx.
  destruct (Detect_init_Ok init' ncl' 3 ip hl dfl rm')
    as (self0 & H0 & _ & Hnl & Hstride & _).
  { rewrite (build_effidehead_layer_length _ _ _ _ _ _ Hb). lia. }
  rewrite Hinit in H0. injection H0 as <-.
  destruct (generate_anchors_total x (stride self) (grid_cell_size self)
              (grid_cell_offset self)) as (ap & st & Hgen).
  { rewrite Hstride. simpl. lia. }
  { apply Forall_lookup. intros i xi Hxi.
    destruct (Hx i xi Hxi) as (c & h & w & _ & Hs & _ & Hpos). eauto 10. }
  destruct (list_choice
    (fun i xi fr =>
       inference_round run self x ap st (anchors_before x 0 i) i fr
       /\ exists c h w, shape xi = [1; c; h; w]
                        /\ shape (f_scale_output fr) = [1; h; w; 4 + 1 + ncl]) x)
    as (frames & Hlenf & Hframes).
  { intros i xi Hxi.
    assert (i < 3) as Hi by (apply lookup_lt_Some in Hxi; lia).
    destruct (Hx i xi Hxi) as (c & h & w & Hc & Hs & Hwf & Hpos).
    destruct (generate_anchors_slices _ _ _ _ _ _ i xi Hgen Hxi) as (si & _ & _ & Ga & Gs).
    assert (spatial_size xi = h * w) as Hsz by (unfold spatial_size; by rewrite Hs).
    rewrite Hsz in Ga, Gs.
    assert (scale_fits run self 1 i xi (ncl * 1) (4 * (rm + 1)) 4) as Hfits
      by (by eapply (built_head_fits run init init' cl 1 ncl ncl' rm rm' ip dfl 3 hl self)).
    assert (length (py_slice ap (anchors_before x 0 i) (anchors_before x 0 i + h * w))
            = h * w) as Hap.
    { rewrite Ga, length_scale_anchor_grid. unfold hw_of. by rewrite Hs. }
    destruct (inference_round_fits self x ap st (anchors_before x 0 i) i xi c h w
                (ncl * 1) (4 * (rm + 1)) (IZR si) Hxi Hs Hpos Hfits Hap Gs)
      as (fr & Hround & Sout).
    exists fr. split; [done|]. exists c, h, w. split; [done|].
    by rewrite Sout, Nat.mul_1_r. }
  destruct (lookup_lt_is_Some_2 x 0) as [x0 Hx0]; [lia|].
  assert (inference_frames run self x = Ok frames) as Hrun.
  { apply (inference_frames_intro run self x ap st frames x0 Hx0 Hgen); [lia|].
    intros i fr Hi.
    destruct (lookup_lt_is_Some_2 x i) as [xi Hxi].
    { rewrite <- Hlenf. by eapply lookup_lt_Some. }
    by destruct (Hframes i xi fr Hxi Hi) as [Hround _]. }
  exists (map f_scale_output frames). unfold forward_inference. rewrite Hrun.
  split; [done|]. split; [rewrite length_map; lia|].
  intros i xi Hxi.
  destruct (lookup_lt_is_Some_2 frames i) as [fr Hi].
  { rewrite Hlenf. by eapply lookup_lt_Some. }
  destruct (Hframes i xi fr Hxi Hi) as [_ (c & h & w & Hs & Sout)].
  exists c, h, w, (f_scale_output fr). split; [done|]. split; [|done].
  by rewrite list_lookup_fmap, Hi.
Qed.

End BuiltHeadInference.

(** The sample layers, and the batch-1 feature maps 2x2, 1x1 and 1x1. *)
Lemma built_head_inference_batch_one_witness :
  exists outs,
    forward_inference sample_run sample_built sample_x1 = Ok outs /\ length outs = 3.
Proof.
  destruct (built_head_inference_batch_one sample_run torch_zeros torch_zeros
              (replicate 11 2) 2 2 1 1 true true sample_layers sample_built sample_x1)
    as (outs & H & Hlen & _).
  - reflexivity.
  - reflexivity.
  - reflexivity.
  - intros m _. apply sample_run_respects.
  - intros i xi Hxi.
    destruct i as [|[|[|i]]]; simpl in Hxi; [| | |discriminate]; injection Hxi as <-;
      eexists _, _, _; (split; [reflexivity|]); (split; [reflexivity|]);
      (split; [reflexivity | simpl; lia]).
  - exists outs. split; [exact H | exact Hlen].
Defined.
